(** * AI workspace backend ([app.py]): a shallow embedding and its properties

    The Flask application of [src/app.py] is embedded as pure functions
    over an explicit world state.  Python strings are sequences of Unicode
    code points, dictionaries are association lists in insertion order,
    the static folder is a finite map from file names to entries, and the
    external collaborators (LLM provider, media libraries, random names)
    are fields of a record of oracles passed to every handler.  The file
    system is a second record: it says, for each name the application
    writes to, whether the write goes through, is refused or is cut, and
    what a failing library call leaves in its output file. *)

From Stdlib Require Import ZArith NArith QArith Ascii String List Lia.
From Stdlib.Strings Require Import Byte.
From Stdlib Require DecimalString.
From stdpp Require Import base option list gmap fin_maps.

Set Default Proof Using "Type".
Set Warnings "-register-all".
Local Open Scope Z_scope.

(** ** Python strings *)

(** A Python [str]: a sequence of code points. *)
Definition str : Type := list N.

(** An ASCII literal of the source. *)
Definition lit (s : string) : str := N_of_ascii <$> list_ascii_of_string s.

(** [s.startswith(p)] *)
Fixpoint startswith (s p : str) {struct p} : bool :=
  match p, s with
  | [], _ => true
  | b :: p', c :: s' => N.eqb c b && startswith s' p'
  | _ :: _, [] => false
  end.

(** The scan of [s.replace(old, new)] for a non-empty [old]: leftmost
    occurrences, never overlapping; [skip] counts the characters of the
    occurrence just matched that are still to be passed over. *)
Fixpoint replace_from (old new : str) (skip : nat) (s : str) : str :=
  match s with
  | [] => []
  | c :: s' =>
      match skip with
      | S k => replace_from old new k s'
      | O =>
          if startswith s old
          then new ++ replace_from old new (pred (length old)) s'
          else c :: replace_from old new 0 s'
      end
  end.

(** [s.replace(old, new)]; with an empty [old] Python puts [new] before
    every character and at the end. *)
Definition str_replace (s old new : str) : str :=
  match old with
  | [] => new ++ flat_map (fun c => c :: new) s
  | _ :: _ => replace_from old new 0 s
  end.

(** [str.isspace] on one code point (the whitespace set of CPython). *)
Definition isspace (c : N) : bool :=
  ((9 <=? c) && (c <=? 13) || (28 <=? c) && (c <=? 32)
   || (c =? 133) || (c =? 160) || (c =? 5760)
   || (8192 <=? c) && (c <=? 8202)
   || (c =? 8232) || (c =? 8233) || (c =? 8239) || (c =? 8287)
   || (c =? 12288))%N.

Fixpoint lstrip (s : str) : str :=
  match s with
  | [] => []
  | c :: s' => if isspace c then lstrip s' else s
  end.

Definition rstrip (s : str) : str := reverse (lstrip (reverse s)).

(** [s.strip()] *)
Definition strip (s : str) : str := rstrip (lstrip s).

(** [s.split(sep)] for a one-character separator. *)
Fixpoint split_on (sep : N) (s : str) : list str :=
  match s with
  | [] => [[]]
  | c :: s' =>
      if N.eqb c sep then [] :: split_on sep s'
      else match split_on sep s' with
           | l :: ls => (c :: l) :: ls
           | [] => [[c]]
           end
  end.

(** Python truthiness of a string. *)
Definition truthy (s : str) : bool :=
  match s with [] => false | _ :: _ => true end.

(** ** Text sanitizer *)

Definition fence_html : str := lit "```html".
Definition fence_json : str := lit "```json".
Definition fence : str := lit "```".

(** [clean_ai_text(text)]; [None] is Python's [None]. *)
Definition clean_ai_text (text : option str) : str :=
  match text with
  | None => []
  | Some t =>
      if truthy t
      then strip (str_replace (str_replace (str_replace t fence_html [])
                                 fence_json []) fence [])
      else []
  end.

(** [p] occurs in [s] as a contiguous substring. *)
Definition occurs (p s : str) : Prop := ∃ a b, s = a ++ p ++ b.

(** A text that is empty or begins with a character that is no whitespace. *)
Definition clean_start (s : str) : Prop :=
  match s with [] => True | c :: _ => isspace c = false end.

(** The three replacements of [clean_ai_text], before the final [strip]. *)
Definition unfenced (t : str) : str :=
  str_replace (str_replace (str_replace t fence_html []) fence_json [])
    fence [].

(** [old] without its last character. *)
Definition but_last (old : str) : str := take (pred (length old)) old.

(** [deleted old s r]: [r] is [s] with the occurrences of [old] deleted,
    found from the left and never overlapping.  An occurrence counts when
    no occurrence begins before it in what is still to be read: [old]
    does not occur in [a ++ but_last old]. *)
Inductive deleted (old : str) : str → str → Prop :=
| deleted_none (s : str) :
    ¬ occurs old s → deleted old s s
| deleted_first (a b r : str) :
    ¬ occurs old (a ++ but_last old) →
    deleted old b r →
    deleted old (a ++ old ++ b) (a ++ r).

(** [trimmed s t]: [t] is [s] without the whitespace at its two ends. *)
Definition trimmed (s t : str) : Prop :=
  ∃ l r, s = l ++ t ++ r
         ∧ Forall (λ c, isspace c = true) l
         ∧ Forall (λ c, isspace c = true) r
         ∧ clean_start t ∧ clean_start (reverse t).

(** ** Dictionaries and JSON values *)

(** A Python [dict] with string keys, in insertion order; keys are kept
    distinct by [dict_set]. *)
Definition dict (V : Type) : Type := list (str * V).

(** [d.get(k)] *)
Fixpoint dict_get {V} (k : str) (d : dict V) : option V :=
  match d with
  | [] => None
  | (k', v) :: d' => if decide (k' = k) then Some v else dict_get k d'
  end.

(** [k in d] *)
Definition dict_mem {V} (k : str) (d : dict V) : bool :=
  match dict_get k d with Some _ => true | None => false end.

(** [d[k] = v]: an existing key keeps its place, a new key goes last. *)
Fixpoint dict_set {V} (k : str) (v : V) (d : dict V) : dict V :=
  match d with
  | [] => [(k, v)]
  | (k', v') :: d' =>
      if decide (k' = k) then (k', v) :: d' else (k', v') :: dict_set k v d'
  end.

Inductive json : Type :=
| JNull
| JBool (b : bool)
| JInt (n : Z)
| JTenths (n : Z)   (* a float with one decimal, as psutil rounds: n / 10 *)
| JStr (s : str)
| JArr (l : list json)
| JObj (d : list (str * json)).

(** [v == s] for a JSON value [v] and a string [s]. *)
Definition json_is_str (v : json) (s : str) : bool :=
  match v with JStr s' => bool_decide (s' = s) | _ => false end.

(** ** Requests, responses and the state of the server *)

Definition bytes : Type := list Byte.byte.

Record upload := { filename : str; payload : bytes }.

Record request := {
  form : dict str;          (* request.form *)
  files : dict upload;      (* request.files *)
  json_body : json          (* request.json *)
}.

Inductive body : Type :=
| Json (j : json)                          (* jsonify(...) *)
| Page (s : str)                           (* a plain string body *)
| Attachment (mimetype name text : str).   (* Response(..., headers=...) *)

Record response := { status : Z; content : body }.

Record message := { role : str; text : str }.

(** The Flask session of the calling client; [None] is an absent key. *)
Record session := {
  is_admin : option bool;
  chat_history : option (list message)
}.

(** An entry of the static folder. *)
Record entry := {
  regular : bool;       (* os.path.isfile *)
  mtime : Q;            (* os.path.getmtime, in seconds *)
  removable : bool;     (* whether os.remove succeeds on it *)
  data : bytes
}.

(** The external capabilities a handler can invoke. *)
Inductive capability :=
| LLM | Probe | Speech | Recognizer | Imaging | Video | Slides.

Record state := {
  global_stats : dict Z;
  sess : session;
  static_folder : gmap str entry;
  listable : bool;             (* whether os.listdir succeeds *)
  clock : Q;                   (* time.time() *)
  uuids : nat;                 (* number of uuid4() calls so far *)
  invoked : list capability    (* capabilities invoked, latest first *)
}.

Definition set_global_stats (g : dict Z) (st : state) : state :=
  {| global_stats := g; sess := sess st; static_folder := static_folder st;
     listable := listable st; clock := clock st; uuids := uuids st;
     invoked := invoked st |}.

Definition set_sess (s : session) (st : state) : state :=
  {| global_stats := global_stats st; sess := s;
     static_folder := static_folder st; listable := listable st;
     clock := clock st; uuids := uuids st; invoked := invoked st |}.

Definition set_static_folder (f : gmap str entry) (st : state) : state :=
  {| global_stats := global_stats st; sess := sess st; static_folder := f;
     listable := listable st; clock := clock st; uuids := uuids st;
     invoked := invoked st |}.

Definition set_uuids (n : nat) (st : state) : state :=
  {| global_stats := global_stats st; sess := sess st;
     static_folder := static_folder st; listable := listable st;
     clock := clock st; uuids := n; invoked := invoked st |}.

Definition set_invoked (l : list capability) (st : state) : state :=
  {| global_stats := global_stats st; sess := sess st;
     static_folder := static_folder st; listable := listable st;
     clock := clock st; uuids := uuids st; invoked := l |}.

(** ** Computations: state and exceptions *)

(** The result of a call: a value, or an exception with its message. *)
Inductive outcome (A : Type) : Type :=
| Returns (a : A)
| Raises (e : str).
Arguments Returns {A} a.
Arguments Raises {A} e.

(** The state survives an exception, as in Python. *)
Definition M (A : Type) : Type := state → outcome A * state.

Definition ret {A} (a : A) : M A := λ st, (Returns a, st).

Definition raise {A} (e : str) : M A := λ st, (Raises e, st).

Definition bind {A B} (m : M A) (k : A → M B) : M B :=
  λ st, match m st with
        | (Returns a, st') => k a st'
        | (Raises e, st') => (Raises e, st')
        end.

(** [try: m except Exception as e: h e] *)
Definition try_except {A} (m : M A) (h : str → M A) : M A :=
  λ st, match m st with
        | (Returns a, st') => (Returns a, st')
        | (Raises e, st') => h e st'
        end.

Definition gets {A} (f : state → A) : M A := λ st, (Returns (f st), st).

Definition modify (f : state → state) : M unit := λ st, (Returns tt, f st).

(** A call of an external capability: it is recorded, then its result is
    returned or its exception raised. *)
Definition invoke {A} (c : capability) (o : outcome A) : M A :=
  λ st, (o, set_invoked (c :: invoked st) st).

Notation "x <- m ;; k" := (bind m (λ x, k))
  (at level 20, m at level 99, k at level 200, only parsing).
Notation "m ;; k" := (bind m (λ _, k))
  (at level 100, k at level 200, right associativity, only parsing).

Fixpoint for_each {A} (l : list A) (body : A → M unit) : M unit :=
  match l with
  | [] => ret tt
  | x :: l' => body x ;; for_each l' body
  end.

(** ** Configuration and external collaborators *)

Record config := {
  API_KEY : option str;     (* os.environ.get("GROQ_API_KEY") *)
  ADMIN_USER : str;
  ADMIN_PASS : str
}.

(** The arguments of [client.chat.completions.create]. *)
Record completion := {
  model : str;
  messages : list message;
  temperature : Q;
  max_tokens : option Z
}.

(** A slide layout of a deck: whether a slide made from it has a title
    shape, and whether it has a placeholder of index 1. *)
Record layout := { has_title : bool; has_body : bool }.

Record paragraph := { ptext : str; level : Z }.

Record slide := {
  made_from : layout;
  title : option str;          (* the text given to the title shape *)
  added : list paragraph       (* the paragraphs added to placeholder 1 *)
}.

Record deck := { slide_layouts : list layout; slides : list slide }.

(** The libraries and services the handlers call; each may raise. *)
Record externals (image : Type) := {
  groq_create : option str → completion → outcome str;
  cpu_percent : outcome Z;               (* in tenths of a percent *)
  virtual_memory_percent : outcome Z;    (* in tenths of a percent *)
  strftime_now : str;
  uuid4_hex : nat → str;
  gtts_save : str → str → outcome bytes;
  recognize_google : bytes → str → outcome str;
  image_open : bytes → outcome image;
  image_convert : image → str → outcome image;
  image_save : image → str → option Z → outcome bytes;
  write_audiofile : bytes → outcome bytes;
  default_deck : deck;                   (* Presentation() *)
  open_deck : bytes → outcome deck;      (* Presentation(path) *)
  deck_bytes : deck → bytes              (* prs.save *)
}.
Arguments groq_create {image}.
Arguments cpu_percent {image}.
Arguments virtual_memory_percent {image}.
Arguments strftime_now {image}.
Arguments uuid4_hex {image}.
Arguments gtts_save {image}.
Arguments recognize_google {image}.
Arguments image_open {image}.
Arguments image_convert {image}.
Arguments image_save {image}.
Arguments write_audiofile {image}.
Arguments default_deck {image}.
Arguments open_deck {image}.
Arguments deck_bytes {image}.

(** ** The static folder *)

(** [os.listdir(STATIC_FOLDER)] *)
Definition os_listdir : M (list str) :=
  λ st, if listable st
        then (Returns ((map_to_list (static_folder st)).*1), st)
        else (Raises (lit "OSError"), st).

(** [os.path.isfile] *)
Definition os_path_isfile (f : str) : M bool :=
  gets (λ st, match static_folder st !! f with
              | Some e => regular e
              | None => false
              end).

Definition os_path_exists (f : str) : M bool :=
  gets (λ st, bool_decide (is_Some (static_folder st !! f))).

Definition os_path_getmtime (f : str) : M Q :=
  λ st, match static_folder st !! f with
        | Some e => (Returns (mtime e), st)
        | None => (Raises (lit "FileNotFoundError"), st)
        end.

Definition os_remove (f : str) : M unit :=
  λ st, match static_folder st !! f with
        | Some e =>
            if removable e
            then (Returns tt, set_static_folder (delete f (static_folder st)) st)
            else (Raises (lit "PermissionError"), st)
        | None => (Raises (lit "FileNotFoundError"), st)
        end.

(** Writing a file of the static folder (open, [save]): a regular file
    stamped with the current time. *)
Definition write_file (f : str) (b : bytes) : M unit :=
  modify (λ st,
    set_static_folder
      (<[f := {| regular := true; mtime := clock st; removable := true;
                 data := b |}]> (static_folder st)) st).

Definition read_file (f : str) : M bytes :=
  λ st, match static_folder st !! f with
        | Some e => (Returns (data e), st)
        | None => (Raises (lit "FileNotFoundError"), st)
        end.

(** How a write of the application to a name of the folder ends: all
    bytes written; refused before the file is created; or cut off with an
    error after the first [n] bytes. *)
Inductive write_outcome := Written | Refused | Cut (n : nat).

(** The file system and what failing library calls leave on it.
    [speech_left text lang] is what a raising [gTTS(...).save(path)]
    leaves in its file and [audio_left clip] what a raising
    [write_audiofile(path)] leaves: [None] when the call fails before it
    creates the file. *)
Record disk := {
  attempt : str → write_outcome;
  speech_left : str → str → option bytes;
  audio_left : bytes → option bytes
}.

(** [file.save(path)] and [prs.save(path)]: the bytes go to the file
    unless the file system refuses or cuts the write, which raises. *)
Definition save_bytes (D : disk) (f : str) (b : bytes) : M unit :=
  match attempt D f with
  | Written => write_file f b
  | Refused => raise (lit "OSError")
  | Cut n => write_file f (take n b) ;; raise (lit "OSError")
  end.

(** [open(path, "w+b")]: creates the file empty, or raises. *)
Definition open_wb (D : disk) (f : str) : M unit :=
  match attempt D f with
  | Refused => raise (lit "OSError")
  | _ => write_file f []
  end.

(** A call of a library that writes its result to the file [f] itself:
    what it produces goes to the file as far as the file system lets it;
    when the call raises, the file holds what the call left, if it got as
    far as creating it. *)
Definition library_save (D : disk) (c : capability) (f : str)
    (o : outcome bytes) (left : option bytes) : M unit :=
  invoke c (Returns tt) ;;
  match o with
  | Returns b => save_bytes D f b
  | Raises e =>
      match left with
      | Some b => write_file f b
      | None => ret tt
      end ;;
      raise e
  end.

(** [uuid.uuid4().hex] *)
Definition uuid4 {image} (E : externals image) : M str :=
  n <- gets uuids ;;
  modify (set_uuids (S n)) ;;
  ret (uuid4_hex E n).

(** ** Usage counter *)

Definition initial_stats : dict Z :=
  [ (lit "text_gen", 0); (lit "audio_gen", 0); (lit "transcribe", 0);
    (lit "pdf_gen", 0); (lit "chat_msgs", 0); (lit "code_review", 0);
    (lit "quiz_gen", 0); (lit "file_conv", 0); (lit "compression", 0);
    (lit "vid_audio", 0) ].

(** [d[k]], which raises on an absent key. *)
Definition dict_item {V} (k : str) (d : dict V) : M V :=
  match dict_get k d with
  | Some v => ret v
  | None => raise (lit "KeyError")
  end.

Definition increment_stat (field : str) : M unit :=
  g <- gets global_stats ;;
  if dict_mem field g
  then v <- dict_item field g ;;
       modify (λ st, set_global_stats (dict_set field (v + 1) (global_stats st)) st)
  else ret tt.

(** ** Cleanup sweeper *)

(** [now - mtime > 1800] *)
Definition expired (now mt : Q) : bool := negb (Qle_bool (now - mt) 1800).

(** The body of the loop over the listing. *)
Definition sweep_file (now : Q) (f : str) : M unit :=
  isfile <- os_path_isfile f ;;
  if isfile
  then mt <- os_path_getmtime f ;;
       if expired now mt
       then try_except (os_remove f) (λ _, ret tt)
       else ret tt
  else ret tt.

Definition cleanup_old_files : M unit :=
  try_except
    (now <- gets clock ;;
     names <- os_listdir ;;
     for_each names (sweep_file now))
    (λ _, ret tt).   (* the message is printed *)

(** ** Flask plumbing *)

Definition jsonify (d : list (str * json)) : body := Json (JObj d).

(** [return b, code] *)
Definition reply (code : Z) (b : body) : M response :=
  ret {| status := code; content := b |}.

(** [request.form.get(k, dflt)] *)
Definition form_get (req : request) (k dflt : str) : str :=
  default dflt (dict_get k (form req)).

(** [data.get(k)] on the parsed JSON body: [None] for an absent key, an
    [AttributeError] when the body is no object. *)
Definition json_get (data : json) (k : str) : M json :=
  match data with
  | JObj d => ret (default JNull (dict_get k d))
  | _ => raise (lit "AttributeError")
  end.

(** A handler that raises is answered by Flask with status 500. *)
Definition serve (h : M response) (st : state) : response * state :=
  match h st with
  | (Returns r, st') => (r, st')
  | (Raises e, st') =>
      ({| status := 500; content := Page (lit "Internal Server Error") |}, st')
  end.

(** ** Auth gate *)

Definition set_is_admin (v : option bool) (s : session) : session :=
  {| is_admin := v; chat_history := chat_history s |}.

Definition set_chat_history (h : option (list message)) (s : session) : session :=
  {| is_admin := is_admin s; chat_history := h |}.

(** [session.get('is_admin', False)] as a condition. *)
Definition session_is_admin (s : session) : bool := default false (is_admin s).

Definition invalid_credentials : M response :=
  reply 401 (jsonify [(lit "success", JBool false);
                      (lit "error", JStr (lit "Invalid Credentials"))]).

Definition login (cfg : config) (req : request) : M response :=
  let data := json_body req in
  u <- json_get data (lit "username") ;;
  if json_is_str u (ADMIN_USER cfg)
  then pw <- json_get data (lit "password") ;;
       if json_is_str pw (ADMIN_PASS cfg)
       then modify (λ st, set_sess (set_is_admin (Some true) (sess st)) st) ;;
            reply 200 (jsonify [(lit "success", JBool true)])
       else invalid_credentials
  else invalid_credentials.

Definition logout : M response :=
  modify (λ st, set_sess (set_is_admin None (sess st)) st) ;;
  reply 200 (jsonify [(lit "success", JBool true)]).

Definition check_auth : M response :=
  s <- gets sess ;;
  reply 200 (jsonify [(lit "is_admin", JBool (session_is_admin s))]).

(** ** Stats and report *)

Definition usage_json (g : dict Z) : json :=
  JObj ((λ kv, (kv.1, JInt kv.2)) <$> g).

Definition stats_body (cpu ram : json) (g : dict Z) : body :=
  jsonify [(lit "cpu", cpu); (lit "ram", ram); (lit "usage", usage_json g)].

(** The two probes of [get_stats] sit in one [try] whose handler is
    [pass]: a reading taken before the failure is kept. *)
Definition get_stats {image} (E : externals image) : M response :=
  s <- gets sess ;;
  readings <-
    (if session_is_admin s
     then try_except
            (c <- invoke Probe (cpu_percent E) ;;
             try_except
               (r <- invoke Probe (virtual_memory_percent E) ;;
                ret (JTenths c, JTenths r))
               (λ _, ret (JTenths c, JInt 0)))
            (λ _, ret (JInt 0, JInt 0))
     else ret (JInt 0, JInt 0)) ;;
  g <- gets global_stats ;;
  reply 200 (stats_body readings.1 readings.2 g).

Definition nl : N := 10.

(** [str(n)] for an integer. *)
Definition str_of_Z (n : Z) : str :=
  lit (DecimalString.NilZero.string_of_int (Z.to_int n)).

(** [str(x)] for a non-negative float with one decimal, given in tenths. *)
Definition str_of_tenths (n : Z) : str :=
  str_of_Z (n / 10) ++ lit "." ++ str_of_Z (n mod 10).

(** [s.ljust(w)] *)
Definition ljust (w : nat) (s : str) : str :=
  s ++ replicate (w - length s)%nat 32%N.

(** ["\n".join(lines)] *)
Fixpoint join_lines (lines : list str) : str :=
  match lines with
  | [] => []
  | [l] => l
  | l :: ls => l ++ nl :: join_lines ls
  end.

Definition download_report {image} (E : externals image) : M response :=
  s <- gets sess ;;
  if negb (session_is_admin s)
  then reply 401 (Page (lit "Unauthorized"))
  else
    let now := strftime_now E in
    cpu <- invoke Probe (cpu_percent E) ;;
    ram <- invoke Probe (virtual_memory_percent E) ;;
    g <- gets global_stats ;;
    let head :=
      [ lit "========================================";
        lit "       AI WORKSPACE SYSTEM REPORT       ";
        lit "========================================";
        lit "Generated: " ++ now;
        lit "Server CPU: " ++ str_of_tenths cpu ++ lit "%";
        lit "Server RAM: " ++ str_of_tenths ram ++ lit "%";
        [];
        lit "----------- FEATURE USAGE ------------" ] in
    let total_ops := foldr Z.add 0 (g.*2) in
    let rows := (λ kv, ljust 15 kv.1 ++ lit " : " ++ str_of_Z kv.2) <$> g in
    let foot :=
      [ lit "--------------------------------------";
        lit "TOTAL OPERATIONS : " ++ str_of_Z total_ops;
        lit "========================================" ] in
    reply 200 (Attachment (lit "text/plain") (lit "System_Report.txt")
                 (join_lines (head ++ rows ++ foot))).

(** ** LLM wrapper and the pure-text handlers *)

Definition llama : str := lit "llama-3.3-70b-versatile".

(** The arguments of the completion call of the wrapper. *)
Definition wrapper_completion (system_prompt user_prompt : str) : completion :=
  {| model := llama;
     messages := [ {| role := lit "system"; text := system_prompt |};
                   {| role := lit "user"; text := user_prompt |} ];
     temperature := 1 # 2;
     max_tokens := Some 2048 |}.

Definition get_groq_response {image} (cfg : config) (E : externals image)
    (system_prompt user_prompt : str) : M (option str) :=
  if negb (truthy (default [] (API_KEY cfg)))
  then ret None   (* the missing key is printed *)
  else
    try_except
      (c <- invoke LLM
              (groq_create E (API_KEY cfg)
                 (wrapper_completion system_prompt user_prompt)) ;;
       ret (Some c))
      (λ _, ret None).

(** [res if res else fallback] *)
Definition or_else (res : option str) (fallback : str) : str :=
  match res with
  | Some r => if truthy r then r else fallback
  | None => fallback
  end.

Definition generate_minutes {image} (cfg : config) (E : externals image)
    (req : request) : M response :=
  increment_stat (lit "text_gen") ;;
  let notes := form_get req (lit "notes") [] in
  res <- get_groq_response cfg E
           (lit "You are a secretary. Convert raw notes into professional Meeting Minutes. Use Markdown.")
           (lit "Here are the notes:" ++ nl :: notes) ;;
  reply 200 (jsonify [(lit "success", JBool true);
                      (lit "minutes", JStr (or_else res (lit "AI Service Busy")))]).

Definition generate_email {image} (cfg : config) (E : externals image)
    (req : request) : M response :=
  increment_stat (lit "text_gen") ;;
  let to := form_get req (lit "recipient") (lit "Team") in
  let topic := form_get req (lit "topic") (lit "Update") in
  res <- get_groq_response cfg E
           (lit "You are a professional email drafter.")
           (lit "Write an email to " ++ to ++ lit " about: " ++ topic) ;;
  reply 200 (jsonify [(lit "success", JBool true);
                      (lit "email_content", JStr (or_else res (lit "AI Service Busy")))]).

Definition review_code {image} (cfg : config) (E : externals image)
    (req : request) : M response :=
  increment_stat (lit "code_review") ;;
  let code := form_get req (lit "code") [] in
  res <- get_groq_response cfg E
           (lit "You are a Senior Developer. Review this code, find bugs, and suggest fixes. Use Markdown.")
           code ;;
  reply 200 (jsonify [(lit "success", JBool true);
                      (lit "review", JStr (or_else res (lit "AI Service Busy")))]).

Definition translate {image} (cfg : config) (E : externals image)
    (req : request) : M response :=
  increment_stat (lit "text_gen") ;;
  let txt := form_get req (lit "text") [] in
  let target := form_get req (lit "target_language") (lit "English") in
  res <- get_groq_response cfg E
           (lit "You are a professional translator. Output ONLY the translated text.")
           (lit "Translate this text to " ++ target ++ lit ":" ++ nl :: txt) ;;
  reply 200 (jsonify [(lit "success", JBool true);
                      (lit "translation", JStr (or_else res (lit "Error")))]).

(** ** Chat *)

(** [if len(history) > 6: history = history[-6:]] *)
Definition last_six (h : list message) : list message :=
  if (6 <? length h)%nat then drop (length h - 6) h else h.

Definition failure (code : Z) (e : str) : M response :=
  reply code (jsonify [(lit "success", JBool false); (lit "error", JStr e)]).

Definition system_turn : message :=
  {| role := lit "system";
     text := lit "You are a helpful AI office assistant. Be concise." |}.

Definition user_turn (msg : str) : message :=
  {| role := lit "user"; text := msg |}.

Definition assistant_turn (ai_reply : str) : message :=
  {| role := lit "assistant"; text := ai_reply |}.

(** The arguments of the completion call of [chat]. *)
Definition chat_completion (history : list message) (msg : str) : completion :=
  {| model := llama;
     messages := system_turn :: history ++ [user_turn msg];
     temperature := 7 # 10;
     max_tokens := None |}.

(** [history] is the list held by the session; the two [append]s and the
    assignment that follows them cannot fail, so the session changes only
    when the completion has returned. *)
Definition chat {image} (cfg : config) (E : externals image)
    (req : request) : M response :=
  increment_stat (lit "chat_msgs") ;;
  let msg := form_get req (lit "message") [] in
  if negb (truthy msg)
  then failure 400 (lit "Empty message")
  else
    s <- gets sess ;;
    let history := default [] (chat_history s) in
    try_except
      (ai_reply <- invoke LLM
                     (groq_create E (API_KEY cfg) (chat_completion history msg)) ;;
       let history' := (history ++ [user_turn msg]) ++ [assistant_turn ai_reply] in
       modify (λ st, set_sess (set_chat_history (Some (last_six history')) (sess st)) st) ;;
       reply 200 (jsonify [(lit "success", JBool true);
                           (lit "response", JStr ai_reply)]))
      (λ e, failure 500 e).

Definition clear_chat : M response :=
  modify (λ st, set_sess (set_chat_history None (sess st)) st) ;;
  reply 200 (jsonify [(lit "success", JBool true)]).

(** ** File tools *)

Definition file_url (fname : str) : body :=
  jsonify [(lit "success", JBool true);
           (lit "file_url", JStr (lit "/static/" ++ fname))].

Definition text_to_audio {image} (D : disk) (E : externals image)
    (req : request) : M response :=
  increment_stat (lit "audio_gen") ;;
  let txt := form_get req (lit "text") [] in
  let lang := form_get req (lit "target_language") (lit "en") in
  if negb (truthy txt)
  then failure 400 (lit "No text")
  else
    try_except
      (h <- uuid4 E ;;
       let fname := lit "speech_" ++ take 8 h ++ lit ".mp3" in
       library_save D Speech fname (gtts_save E txt lang)
         (speech_left D txt lang) ;;
       reply 200 (file_url fname))
      (λ e, failure 500 e).

Definition audio_to_text {image} (D : disk) (E : externals image)
    (req : request) : M response :=
  increment_stat (lit "transcribe") ;;
  match dict_get (lit "file") (files req) with
  | None => failure 400 (lit "No file")
  | Some file =>
      let lang := form_get req (lit "language") (lit "en-US") in
      h <- uuid4 E ;;
      let fname := lit "temp_" ++ take 8 h ++ lit ".wav" in
      save_bytes D fname (payload file) ;;
      try_except
        (audio <- read_file fname ;;
         t <- invoke Recognizer (recognize_google E audio lang) ;;
         os_remove fname ;;
         reply 200 (jsonify [(lit "success", JBool true); (lit "text", JStr t)]))
        (λ e,
          there <- os_path_exists fname ;;
          (if there then os_remove fname else ret tt) ;;
          failure 500 e)
  end.

Definition video_to_audio {image} (D : disk) (E : externals image)
    (req : request) : M response :=
  increment_stat (lit "vid_audio") ;;
  match dict_get (lit "file") (files req) with
  | None => failure 400 (lit "No file")
  | Some file =>
      h1 <- uuid4 E ;;
      let vid_name := lit "temp_vid_" ++ take 8 h1 ++ lit ".mp4" in
      save_bytes D vid_name (payload file) ;;
      h2 <- uuid4 E ;;
      let audio_name := lit "extracted_" ++ take 8 h2 ++ lit ".mp3" in
      r <- try_except
             (clip <- read_file vid_name ;;
              library_save D Video audio_name (write_audiofile E clip)
                (audio_left D clip) ;;
              reply 200 (file_url audio_name))
             (λ e, failure 500 e) ;;
      (* finally *)
      there <- os_path_exists vid_name ;;
      (if there then try_except (os_remove vid_name) (λ _, ret tt) else ret tt) ;;
      ret r
  end.

Definition is_ascii (s : str) : bool := forallb (λ c, c <? 128)%N s.

Definition ascii_upper (c : N) : N :=
  if ((97 <=? c) && (c <=? 122))%N then (c - 32)%N else c.

Definition ascii_lower (c : N) : N :=
  if ((65 <=? c) && (c <=? 90))%N then (c + 32)%N else c.

(** The case mappings of the Unicode database, used by [str.upper] and
    [str.lower] on a text that is not pure ASCII. *)
Record casing := {
  unicode_upper : str → str;
  unicode_lower : str → str
}.

Definition upper (U : casing) (s : str) : str :=
  if is_ascii s then ascii_upper <$> s else unicode_upper U s.

Definition lower (U : casing) (s : str) : str :=
  if is_ascii s then ascii_lower <$> s else unicode_lower U s.

Definition convert_file {image} (U : casing) (E : externals image)
    (req : request) : M response :=
  increment_stat (lit "file_conv") ;;
  match dict_get (lit "file") (files req) with
  | None => failure 400 (lit "No file")
  | Some file =>
      let fmt := upper U (form_get req (lit "format") (lit "PNG")) in
      try_except
        (img <- invoke Imaging (image_open E (payload file)) ;;
         img_fmt <-
           (if bool_decide (fmt ∈ [lit "JPG"; lit "JPEG"])
            then img' <- invoke Imaging (image_convert E img (lit "RGB")) ;;
                 ret (img', lit "JPEG")
            else ret (img, fmt)) ;;
         h <- uuid4 E ;;
         let fname := lit "conv_" ++ take 8 h ++ lit "." ++ lower U img_fmt.2 in
         b <- invoke Imaging (image_save E img_fmt.1 img_fmt.2 None) ;;
         write_file fname b ;;
         reply 200 (file_url fname))
        (λ e, failure 500 e)
  end.

Definition compress_image {image} (E : externals image) (req : request)
    : M response :=
  increment_stat (lit "compression") ;;
  match dict_get (lit "file") (files req) with
  | None => failure 400 (lit "No file")
  | Some file =>
      try_except
        (img0 <- invoke Imaging (image_open E (payload file)) ;;
         img <- invoke Imaging (image_convert E img0 (lit "RGB")) ;;
         h <- uuid4 E ;;
         let fname := lit "comp_" ++ take 8 h ++ lit ".jpg" in
         b <- invoke Imaging (image_save E img (lit "JPEG") (Some 30)) ;;
         write_file fname b ;;
         reply 200 (file_url fname))
        (λ e, failure 500 e)
  end.

(** ** Presentation builder *)

Definition slide_mark : str := lit "SLIDE:".
Definition point_mark : str := lit "POINT:".

(** [prs.slides.add_slide(layout)] *)
Definition add_slide (prs : deck) (lay : layout) : deck :=
  {| slide_layouts := slide_layouts prs;
     slides := slides prs ++ [{| made_from := lay; title := None; added := [] |}] |}.

(** [slide.shapes.title.text = t] inside [try ... except: pass]; a slide
    without a title shape is left as it is. *)
Definition set_title (t : str) (sl : slide) : slide :=
  if has_title (made_from sl)
  then {| made_from := made_from sl; title := Some t; added := added sl |}
  else sl.

(** The body of the [POINT:] branch inside [try ... except: pass]; a slide
    without placeholder 1 is left as it is. *)
Definition add_point (t : str) (sl : slide) : slide :=
  if has_body (made_from sl)
  then {| made_from := made_from sl; title := title sl;
          added := added sl ++ [{| ptext := t; level := 0 |}] |}
  else sl.

Definition update_slide (i : nat) (f : slide → slide) (prs : deck) : deck :=
  {| slide_layouts := slide_layouts prs; slides := alter f i (slides prs) |}.

(** One turn of the loop over the lines.  The variable [slide] of the
    source refers to a slide held by the deck: it is kept as the position
    of that slide. *)
Definition outline_step (raw : str) (acc : deck * option nat)
    : outcome (deck * option nat) :=
  let '(prs, cur) := acc in
  let line := strip raw in
  if startswith line slide_mark then
    let layout_idx := if (1 <? length (slide_layouts prs))%nat then 1%nat else 0%nat in
    match slide_layouts prs !! layout_idx with
    | None => Raises (lit "IndexError")
    | Some lay =>
        let i := length (slides prs) in
        let prs' := add_slide prs lay in
        Returns (update_slide i (set_title (strip (str_replace line slide_mark []))) prs',
                 Some i)
    end
  else if startswith line point_mark then
    match cur with
    | Some i =>
        Returns (update_slide i (add_point (strip (str_replace line point_mark []))) prs,
                 cur)
    | None => Returns acc
    end
  else Returns acc.

Fixpoint outline_loop (lines : list str) (acc : deck * option nat)
    : outcome (deck * option nat) :=
  match lines with
  | [] => Returns acc
  | raw :: rest =>
      match outline_step raw acc with
      | Returns acc' => outline_loop rest acc'
      | Raises e => Raises e
      end
  end.

Definition lift {A} (o : outcome A) : M A := λ st, (o, st).

Definition ppt_prompt (topic src_text : str) : str :=
  lit "Create a presentation outline for '" ++ topic ++ lit "'. Context: "
    ++ src_text ++ lit "." ++ nl :: lit "Output strictly 4 slides in this format:"
    ++ nl :: lit "SLIDE: [Title of Slide]"
    ++ nl :: lit "POINT: [Bullet point 1]"
    ++ nl :: lit "POINT: [Bullet point 2]"
    ++ nl :: lit "SLIDE: [Next Title]"
    ++ nl :: lit "...".

(** Loading the template: [temp_path] is assigned before the file is
    saved and opened, so it stays set when either raises. *)
Definition load_deck {image} (D : disk) (E : externals image)
    (req : request) : M (option str * deck) :=
  match dict_get (lit "template_file") (files req) with
  | Some template_file =>
      if truthy (filename template_file)
      then h <- uuid4 E ;;
           let temp_path := lit "temp_" ++ h ++ lit ".pptx" in
           prs <- try_except
                    (save_bytes D temp_path (payload template_file) ;;
                     b <- read_file temp_path ;;
                     invoke Slides (open_deck E b))
                    (λ _, ret (default_deck E)) ;;
           ret (Some temp_path, prs)
      else ret (None, default_deck E)
  | None => ret (None, default_deck E)
  end.

Definition make_ppt {image} (D : disk) (cfg : config) (E : externals image)
    (req : request) : M response :=
  increment_stat (lit "text_gen") ;;
  let topic := form_get req (lit "topic") (lit "Presentation") in
  let src_text := form_get req (lit "source_text") [] in
  loaded <- load_deck D E req ;;
  let temp_path : option str := loaded.1 in
  let prs := loaded.2 in
  ai_text <- get_groq_response cfg E (lit "You are a presentation generator.")
               (ppt_prompt topic src_text) ;;
  if negb (truthy (default [] ai_text))
  then match temp_path with
       | Some tp => os_remove tp
       | None => ret tt
       end ;;
       reply 200 (jsonify [(lit "success", JBool false);
                           (lit "error", JStr (lit "AI Failed"))])
  else
    let cleaned_text := clean_ai_text ai_text in
    built <- lift (outline_loop (split_on nl cleaned_text) (prs, None)) ;;
    h <- uuid4 E ;;
    let fname := lit "presentation_" ++ take 8 h ++ lit ".pptx" in
    save_bytes D fname (deck_bytes E built.1) ;;
    match temp_path with
    | Some tp =>
        there <- os_path_exists tp ;;
        if there then os_remove tp else ret tt
    | None => ret tt
    end ;;
    reply 200 (file_url fname).

(** ** Reference points for the statements *)

(** A client that has made no request yet. *)
Definition fresh_session : session :=
  {| is_admin := None; chat_history := None |}.

(** The server right after start, with an empty static folder. *)
Definition boot : state :=
  {| global_stats := initial_stats; sess := fresh_session;
     static_folder := ∅; listable := true; clock := 0; uuids := 0;
     invoked := [] |}.

(** [n] calls in a row. *)
Fixpoint times (n : nat) (m : M unit) : M unit :=
  match n with
  | O => ret tt
  | S n' => m ;; times n' m
  end.

(** The keys of a dictionary. *)
Definition keys {V} (d : dict V) : list str := d.*1.

(** The body of the request carries the configured admin credentials. *)
Definition credentials_match (cfg : config) (d : list (str * json)) : Prop :=
  dict_get (lit "username") d = Some (JStr (ADMIN_USER cfg))
  ∧ dict_get (lit "password") d = Some (JStr (ADMIN_PASS cfg)).

Definition auth_reply (b : bool) : response :=
  {| status := 200; content := jsonify [(lit "is_admin", JBool b)] |}.

Definition success_reply : response :=
  {| status := 200; content := jsonify [(lit "success", JBool true)] |}.

Definition invalid_reply : response :=
  {| status := 401;
     content := jsonify [(lit "success", JBool false);
                         (lit "error", JStr (lit "Invalid Credentials"))] |}.

(** ** Sample inputs *)

(** The configuration when the environment sets nothing. *)
Definition default_config : config :=
  {| API_KEY := None; ADMIN_USER := lit "Admin"; ADMIN_PASS := lit "admin123" |}.

Definition json_request (j : json) : request :=
  {| form := []; files := []; json_body := j |}.

Definition form_request (f : dict str) : request :=
  {| form := f; files := []; json_body := JNull |}.

Definition good_login : list (str * json) :=
  [(lit "username", JStr (lit "Admin")); (lit "password", JStr (lit "admin123"))].

Definition bad_login : list (str * json) :=
  [(lit "username", JStr (lit "Admin")); (lit "password", JStr (lit "guess"))].

(** The layouts of the stock template of the slide library: title slide,
    title and content, section header, two content, comparison, title
    only, blank, content with caption, picture with caption, title and
    vertical text, vertical title and text. *)
Definition stock_deck : deck :=
  {| slide_layouts :=
       [ {| has_title := true; has_body := true |};
         {| has_title := true; has_body := true |};
         {| has_title := true; has_body := true |};
         {| has_title := true; has_body := true |};
         {| has_title := true; has_body := true |};
         {| has_title := true; has_body := false |};
         {| has_title := false; has_body := false |};
         {| has_title := true; has_body := true |};
         {| has_title := true; has_body := false |};
         {| has_title := true; has_body := true |};
         {| has_title := true; has_body := true |} ];
     slides := [] |}.

(** Collaborators for the examples: the provider answers [answer] when
    there is one and fails otherwise, the media libraries work on bytes
    as they are, and [open_deck] yields [template]. *)
Definition scripted (answer : option str) (template : outcome deck)
    : externals bytes :=
  {| groq_create := λ _ _,
       match answer with
       | Some a => Returns a
       | None => Raises (lit "Connection error.")
       end;
     cpu_percent := Returns 125;
     virtual_memory_percent := Returns 403;
     strftime_now := lit "2024-01-01 00:00:00";
     uuid4_hex := λ n, replicate 32 (48 + N.of_nat n mod 10)%N;
     gtts_save := λ _ _, Returns [];
     recognize_google := λ _ _, Returns [];
     image_open := λ b, Returns b;
     image_convert := λ img _, Returns img;
     image_save := λ img _ _, Returns img;
     write_audiofile := λ b, Returns b;
     default_deck := stock_deck;
     open_deck := λ _, template;
     deck_bytes := λ _, [] |}.

Definition offline : externals bytes :=
  scripted None (Raises (lit "PackageNotFoundError")).

(** The LLM wrapper yields [None] whatever it is asked. *)
Definition completion_is_null {image} (cfg : config) (E : externals image)
    : Prop :=
  ∀ (system_prompt user_prompt : str) (st : state),
    (get_groq_response cfg E system_prompt user_prompt st).1 = Returns None.

Definition text_reply (key value : str) : response :=
  {| status := 200;
     content := jsonify [(lit "success", JBool true); (key, JStr value)] |}.

Definition unauthorized_reply : response :=
  {| status := 401; content := Page (lit "Unauthorized") |}.

(** The server after one chat request with an empty message. *)
Definition after_one_chat : state :=
  (chat default_config offline (form_request []) boot).2.


(** [request.form.get('message', '')] *)
Definition message_of (req : request) : str := form_get req (lit "message") [].

(** A chat request carrying the message [m]. *)
Definition say (m : str) : request := form_request [(lit "message", m)].

(** A provider that always answers "ok". *)
Definition agreeable : externals bytes :=
  scripted (Some (lit "ok")) (Raises (lit "PackageNotFoundError")).

(** An entry that one pass of the sweeper removes. *)
Definition sweepable (now : Q) (e : entry) : bool :=
  regular e && expired now (mtime e) && removable e.

(** What the loop body does to the folder. *)
Definition sweep_one (now : Q) (m : gmap str entry) (f : str) : gmap str entry :=
  match m !! f with
  | Some e => if sweepable now e then delete f m else m
  | None => m
  end.

Definition keep_unless_swept (now : Q) (e : entry) : option entry :=
  if sweepable now e then None else Some e.

(** A folder for the examples, swept at time 10000: a stale file, a
    recent file, a stale directory and a stale file that cannot be
    removed. *)
Definition sample_folder : gmap str entry :=
  <[lit "old.pdf" := {| regular := true; mtime := 8000; removable := true; data := [] |}]>
  (<[lit "new.mp3" := {| regular := true; mtime := 9000; removable := true; data := [] |}]>
  (<[lit "dir" := {| regular := false; mtime := 1000; removable := false; data := [] |}]>
  (<[lit "locked.pdf" := {| regular := true; mtime := 1000; removable := false; data := [] |}]>
   ∅))).

Definition sample_store : state :=
  {| global_stats := initial_stats; sess := fresh_session;
     static_folder := sample_folder; listable := true; clock := 10000;
     uuids := 0; invoked := [] |}.

(** ** The outline as a sequence of titled slides *)

(** The reading of the outline that the handler is meant to implement:
    every [SLIDE:] line opens a slide, and the [POINT:] lines that follow
    it, up to the next [SLIDE:] line, are its bullets.  Lines are taken
    without their surrounding whitespace, as the loop does. *)
Definition is_slide_line (raw : str) : bool := startswith (strip raw) slide_mark.

Definition is_point_line (raw : str) : bool := startswith (strip raw) point_mark.

Definition title_of (raw : str) : str :=
  strip (str_replace (strip raw) slide_mark []).

Definition point_of (raw : str) : str :=
  strip (str_replace (strip raw) point_mark []).

(** The bullets up to the next [SLIDE:] line. *)
Fixpoint points_after (lines : list str) : list str :=
  match lines with
  | [] => []
  | raw :: rest =>
      if is_slide_line raw then []
      else if is_point_line raw then point_of raw :: points_after rest
      else points_after rest
  end.

Fixpoint outline (lines : list str) : list (str * list str) :=
  match lines with
  | [] => []
  | raw :: rest =>
      if is_slide_line raw
      then (title_of raw, points_after rest) :: outline rest
      else outline rest
  end.






(** The name under which the template is staged by a request arriving in
    state [st]. *)
Definition temp_name {image} (E : externals image) (st : state) : str :=
  lit "temp_" ++ uuid4_hex E (uuids st) ++ lit ".pptx".


(** A file written now. *)
Definition new_file (st : state) (b : bytes) : entry :=
  {| regular := true; mtime := clock st; removable := true; data := b |}.





(** The wrapper has no answer to the completion call [c]: the key is
    missing or empty, the provider raises, or it answers the empty text. *)
Definition no_answer {image} (cfg : config) (E : externals image)
    (c : completion) : Prop :=
  truthy (default [] (API_KEY cfg)) = false
  ∨ (∃ e, groq_create E (API_KEY cfg) c = Raises e)
  ∨ groq_create E (API_KEY cfg) c = Returns [].

(** A file system that takes every write, and libraries that leave
    nothing behind when they fail. *)
Definition sound_disk : disk :=
  {| attempt := λ _, Written;
     speech_left := λ _ _, None;
     audio_left := λ _, None |}.

(** A file system that refuses every write. *)
Definition read_only_disk : disk :=
  {| attempt := λ _, Refused;
     speech_left := λ _ _, None;
     audio_left := λ _, None |}.

(** A file system that cuts every write after two bytes, and libraries
    that leave an empty file when they fail. *)
Definition full_disk : disk :=
  {| attempt := λ _, Cut 2;
     speech_left := λ _ _, Some [];
     audio_left := λ _, Some [] |}.


(** The lines of the cleaned outline. *)
Definition outline_lines (ai_text : str) : list str :=
  split_on nl (clean_ai_text (Some ai_text)).

Definition ai_failed_reply : response :=
  {| status := 200;
     content := jsonify [(lit "success", JBool false);
                         (lit "error", JStr (lit "AI Failed"))] |}.

(** A configuration with a provider key. *)
Definition keyed_config : config :=
  {| API_KEY := Some (lit "gsk_test"); ADMIN_USER := lit "Admin";
     ADMIN_PASS := lit "admin123" |}.

(** The outline [SLIDE: A / POINT: x / SLIDE: B / POINT: y]. *)
Definition two_slide_outline : str :=
  lit "SLIDE: A" ++ nl :: lit "POINT: x" ++ nl :: lit "SLIDE: B" ++ nl :: lit "POINT: y".

Definition presenter : externals bytes :=
  scripted (Some two_slide_outline) (Raises (lit "PackageNotFoundError")).


Definition failure_reply (code : Z) (e : str) : response :=
  {| status := code;
     content := jsonify [(lit "success", JBool false); (lit "error", JStr e)] |}.

(** [request.form.get('format', 'PNG')] *)
Definition requested_format (req : request) : str :=
  form_get req (lit "format") (lit "PNG").

(** The name of the converted image written by a request arriving in
    state [st], with extension [ext]. *)
Definition conv_name {image} (E : externals image) (st : state) (ext : str) : str :=
  lit "conv_" ++ take 8 (uuid4_hex E (uuids st)) ++ lit "." ++ ext.

(** Case mappings for texts that are pure ASCII. *)
Definition ascii_only : casing :=
  {| unicode_upper := λ s, s; unicode_lower := λ s, s |}.

(** An upload of three bytes under the field [file], asking for [fmt]. *)
Definition convert_request (fmt : str) : request :=
  {| form := [(lit "format", fmt)];
     files := [(lit "file", {| filename := lit "in.png";
                              payload := [x01; x02; x03]%byte |})];
     json_body := JNull |}.

(** A template without any layout. *)
Definition bare_deck : deck := {| slide_layouts := []; slides := [] |}.

(** A request that uploads a template under the name [deck.pptx]. *)
Definition template_request : request :=
  {| form := [];
     files := [(lit "template_file",
                {| filename := lit "deck.pptx"; payload := [x50; x4b]%byte |})];
     json_body := JNull |}.

(** ** PDF handlers *)

Definition byte_of (n : N) : byte := default x00 (Byte.of_N n).

(** The UTF-8 bytes of one code point; a surrogate cannot be encoded. *)
Definition utf8_char (c : N) : outcome bytes :=
  (if c <? 128 then Returns [byte_of c]
   else if c <? 2048
   then Returns [byte_of (192 + c / 64); byte_of (128 + c mod 64)]
   else if (55296 <=? c) && (c <=? 57343)
   then Raises (lit "UnicodeEncodeError")
   else if c <? 65536
   then Returns [byte_of (224 + c / 4096); byte_of (128 + (c / 64) mod 64);
                 byte_of (128 + c mod 64)]
   else Returns [byte_of (240 + c / 262144); byte_of (128 + (c / 4096) mod 64);
                 byte_of (128 + (c / 64) mod 64); byte_of (128 + c mod 64)])%N.

(** [s.encode('utf-8')] *)
Fixpoint encode_utf8 (s : str) : outcome bytes :=
  match s with
  | [] => Returns []
  | c :: s' =>
      match utf8_char c, encode_utf8 s' with
      | Returns b, Returns bs => Returns (b ++ bs)
      | Raises e, _ => Raises e
      | _, Raises e => Raises e
      end
  end.

(** The PDF library: [create_pdf src] gives the bytes that
    [pisa.CreatePDF(src, dest=f)] writes to [f], and the exception it
    ends with when it raises. *)
Record renderer := { create_pdf : bytes → bytes * option str }.

(** [with open(path, "w+b") as f: pisa.CreatePDF(BytesIO(html.encode('utf-8')), dest=f)]:
    the file is created empty before anything else happens, unless the
    file system refuses to open it. *)
Definition render_pdf (D : disk) (R : renderer) (path html : str) : M unit :=
  open_wb D path ;;
  src <- lift (encode_utf8 html) ;;
  write_file path (create_pdf R src).1 ;;
  match (create_pdf R src).2 with
  | Some e => raise e
  | None => ret tt
  end.

Definition text_to_pdf {image} (D : disk) (R : renderer)
    (E : externals image) (req : request) : M response :=
  increment_stat (lit "pdf_gen") ;;
  let html_content := form_get req (lit "html_content") [] in
  let styled_html :=
    lit "<html><body><style>body{font-family:Helvetica;}</style>"
      ++ html_content ++ lit "</body></html>" in
  h <- uuid4 E ;;
  let fname := lit "doc_" ++ take 8 h ++ lit ".pdf" in
  try_except
    (render_pdf D R fname styled_html ;;
     reply 200 (file_url fname))
    (λ e, failure 500 e).

Definition quiz_prompt (count topic : str) : str :=
  join_lines
    [ lit "Create a " ++ count ++ lit "-question Multiple Choice Quiz about '" ++ topic ++ lit "'.";
      lit "Output ONLY raw HTML content (no ```html fences).";
      lit "Use this EXACT structure for every question:";
      lit "<div class='question-box'>";
      lit "  <h3 class='q-title'>1. Question text here?</h3>";
      lit "  <ul class='options-list'>";
      lit "    <li>A) Option 1</li>";
      lit "    <li>B) Option 2</li>";
      lit "    <li>C) Option 3</li>";
      lit "    <li>D) Option 4</li>";
      lit "  </ul>";
      lit "</div>";
      lit "At the very end, add: <h4>Answer Key</h4>";
      lit "<table class='answer-key'>...</table>" ].

Definition quiz_pdf_html (topic clean_html : str) : str :=
  join_lines
    [ [];
      lit "    <html>";
      lit "    <head>";
      lit "        <style>";
      lit "            @page { size: A4; margin: 2cm; }";
      lit "            body { font-family: Helvetica, sans-serif; font-size: 12px; color: #000; line-height: 1.4; }";
      lit "            ";
      lit "            /* Header */";
      lit "            h1 { text-align: center; color: #4f46e5; border-bottom: 2px solid #eee; padding-bottom: 10px; margin-bottom: 20px; }";
      lit "            ";
      lit "            /* Questions */";
      lit "            .question-box { margin-bottom: 10px; page-break-inside: avoid; }";
      lit "            .q-title { font-size: 14px; font-weight: bold; margin-bottom: 5px; color: #333; }";
      lit "            ";
      lit "            /* Options (Tighten gaps) */";
      lit "            ul.options-list { margin: 0; padding-left: 20px; list-style-type: none; }";
      lit "            li { margin-bottom: 2px; padding: 2px 0; }";
      lit "            ";
      lit "            /* Answer Key */";
      lit "            h4 { margin-top: 20px; border-bottom: 1px solid #ccc; }";
      lit "            table.answer-key { width: 100%; border-collapse: collapse; margin-top: 10px; font-size: 11px; }";
      lit "            th, td { border: 1px solid #999; padding: 5px; text-align: left; }";
      lit "            th { background-color: #f0f0f0; }";
      lit "        </style>";
      lit "    </head>";
      lit "    <body>";
      lit "        <h1>Quiz: " ++ topic ++ lit "</h1>";
      lit "        " ++ clean_html;
      lit "    </body>";
      lit "    </html>";
      lit "    " ].

Definition generate_quiz {image} (D : disk) (cfg : config) (R : renderer)
    (E : externals image) (req : request) : M response :=
  increment_stat (lit "quiz_gen") ;;
  let topic := form_get req (lit "topic") (lit "General Knowledge") in
  let count := form_get req (lit "count") (lit "5") in
  raw_res <- get_groq_response cfg E (lit "You are a strict HTML quiz generator.")
               (quiz_prompt count topic) ;;
  if negb (truthy (default [] raw_res))
  then reply 200 (jsonify [(lit "success", JBool false);
                           (lit "error", JStr (lit "AI Failed"))])
  else
    let clean_html := clean_ai_text raw_res in
    let pdf_html := quiz_pdf_html topic clean_html in
    h <- uuid4 E ;;
    let fname := lit "quiz_" ++ take 8 h ++ lit ".pdf" in
    try_except
      (render_pdf D R fname pdf_html ;;
       reply 200 (jsonify [(lit "success", JBool true);
                           (lit "quiz", JStr clean_html);
                           (lit "file_url", JStr (lit "/static/" ++ fname))]))
      (λ e, failure 500 e).

(** [health] *)
Definition health : M response := reply 200 (Page (lit "OK")).

(** Renderers for the examples: one that writes its input, one that
    writes two bytes and then raises. *)
Definition plain_renderer : renderer := {| create_pdf := λ src, (src, None) |}.

Definition broken_renderer : renderer :=
  {| create_pdf := λ src, (take 2 src, Some (lit "render failed")) |}.

(** A logged-in administrator on the freshly started server. *)
Definition admin_state : state :=
  set_sess {| is_admin := Some true; chat_history := None |} boot.

(** Collaborators whose CPU probe fails. *)
Definition probeless : externals bytes :=
  {| groq_create := groq_create offline;
     cpu_percent := Raises (lit "AccessDenied");
     virtual_memory_percent := virtual_memory_percent offline;
     strftime_now := strftime_now offline;
     uuid4_hex := uuid4_hex offline;
     gtts_save := gtts_save offline;
     recognize_google := recognize_google offline;
     image_open := image_open offline;
     image_convert := image_convert offline;
     image_save := image_save offline;
     write_audiofile := write_audiofile offline;
     default_deck := default_deck offline;
     open_deck := open_deck offline;
     deck_bytes := deck_bytes offline |}.

(** Collaborators whose speech and video libraries fail. *)
Definition silent : externals bytes :=
  {| groq_create := groq_create offline;
     cpu_percent := cpu_percent offline;
     virtual_memory_percent := virtual_memory_percent offline;
     strftime_now := strftime_now offline;
     uuid4_hex := uuid4_hex offline;
     gtts_save := λ _ _, Raises (lit "gTTSError");
     recognize_google := recognize_google offline;
     image_open := image_open offline;
     image_convert := image_convert offline;
     image_save := image_save offline;
     write_audiofile := λ _, Raises (lit "OSError");
     default_deck := default_deck offline;
     open_deck := open_deck offline;
     deck_bytes := deck_bytes offline |}.

(** ** What a computation leaves alone *)

(** The computation [m], whether it returns or raises, leaves the part
    [f] of the state as it found it. *)
Definition keeps {A B} (f : state → B) (m : M A) : Prop :=
  ∀ st, f (m st).2 = f st.

(** [sum(global_stats.values())] *)
Definition total_ops (g : dict Z) : Z := foldr Z.add 0 (g.*2).

(** The computation [h] changes the usage counters exactly as one call of
    [increment_stat c] does, whether it returns or raises. *)
Definition counts {A} (c : str) (h : M A) : Prop :=
  ∀ st, global_stats (h st).2 = global_stats (increment_stat c st).2.

(** The row of the report for one counter. *)
Definition report_row (kv : str * Z) : str :=
  ljust 15 kv.1 ++ lit " : " ++ str_of_Z kv.2.

(** The lines of the report, given the time stamp, the two readings in
    tenths of a percent and the counters. *)
Definition report_lines (now : str) (cpu ram : Z) (g : dict Z) : list str :=
  [ lit "========================================";
    lit "       AI WORKSPACE SYSTEM REPORT       ";
    lit "========================================";
    lit "Generated: " ++ now;
    lit "Server CPU: " ++ str_of_tenths cpu ++ lit "%";
    lit "Server RAM: " ++ str_of_tenths ram ++ lit "%";
    [];
    lit "----------- FEATURE USAGE ------------" ]
  ++ (report_row <$> g)
  ++ [ lit "--------------------------------------";
       lit "TOTAL OPERATIONS : " ++ str_of_Z (total_ops g);
       lit "========================================" ].

(** The name of an artifact made from the [n]-th random identifier. *)
Definition artifact_name {image} (E : externals image) (prefix ext : str)
    (n : nat) : str :=
  prefix ++ take 8 (uuid4_hex E n) ++ ext.

(** A file as [write_file] leaves it at time [t]. *)
Definition written (t : Q) (b : bytes) : entry :=
  {| regular := true; mtime := t; removable := true; data := b |}.


(** The image pipeline of [convert_file] for the upper-cased format
    [fmt]: the encoded bytes and the format they were saved in. *)
Definition convert_pipeline {image} (E : externals image) (fmt : str)
    (p : bytes) : outcome (bytes * str) :=
  match image_open E p with
  | Raises e => Raises e
  | Returns img =>
      if bool_decide (fmt ∈ [lit "JPG"; lit "JPEG"])
      then match image_convert E img (lit "RGB") with
           | Raises e => Raises e
           | Returns rgb =>
               match image_save E rgb (lit "JPEG") None with
               | Raises e => Raises e
               | Returns b => Returns (b, lit "JPEG")
               end
           end
      else match image_save E img fmt None with
           | Raises e => Raises e
           | Returns b => Returns (b, fmt)
           end
  end.

(** A request that uploads three bytes under the field [file]. *)
Definition upload_request : request :=
  {| form := [];
     files := [(lit "file", {| filename := lit "in.bin";
                              payload := [x01; x02; x03]%byte |})];
     json_body := JNull |}.

(** The page [text_to_pdf] renders for a request. *)
Definition styled_html (req : request) : str :=
  lit "<html><body><style>body{font-family:Helvetica;}</style>"
    ++ form_get req (lit "html_content") [] ++ lit "</body></html>".

(** The completion call of [generate_quiz]. *)
Definition quiz_completion (req : request) : completion :=
  wrapper_completion (lit "You are a strict HTML quiz generator.")
    (quiz_prompt (form_get req (lit "count") (lit "5"))
       (form_get req (lit "topic") (lit "General Knowledge"))).

Definition quiz_reply (quiz fname : str) : response :=
  {| status := 200;
     content := jsonify [(lit "success", JBool true);
                         (lit "quiz", JStr quiz);
                         (lit "file_url", JStr (lit "/static/" ++ fname))] |}.

(** A provider that answers with a fenced HTML fragment. *)
Definition quizmaster : externals bytes :=
  scripted (Some (lit "```html" ++ nl :: lit "<h3>Q1</h3>" ++ nl :: lit "```"))
    (Raises (lit "PackageNotFoundError")).

(** A provider that answers every call with the empty string. *)
Definition mute : externals bytes :=
  scripted (Some []) (Raises (lit "PackageNotFoundError")).

(** ** The wrapper as a function of the provider *)

(** What [get_groq_response] yields for the completion call [c]: nothing
    without a key or when the provider raises, else the answer of the
    provider. *)
Definition wrapper_answer {image} (cfg : config) (E : externals image)
    (c : completion) : option str :=
  if truthy (default [] (API_KEY cfg))
  then match groq_create E (API_KEY cfg) c with
       | Returns a => Some a
       | Raises _ => None
       end
  else None.

(** The capabilities that one call of the wrapper invokes. *)
Definition wrapper_calls (cfg : config) : list capability :=
  if truthy (default [] (API_KEY cfg)) then [LLM] else [].

(** The completion calls of the four pure-text handlers: every field of
    the form is read with its default. *)
Definition minutes_completion (req : request) : completion :=
  wrapper_completion
    (lit "You are a secretary. Convert raw notes into professional Meeting Minutes. Use Markdown.")
    (lit "Here are the notes:" ++ nl :: form_get req (lit "notes") []).

Definition email_completion (req : request) : completion :=
  wrapper_completion (lit "You are a professional email drafter.")
    (lit "Write an email to " ++ form_get req (lit "recipient") (lit "Team")
       ++ lit " about: " ++ form_get req (lit "topic") (lit "Update")).

Definition review_completion (req : request) : completion :=
  wrapper_completion
    (lit "You are a Senior Developer. Review this code, find bugs, and suggest fixes. Use Markdown.")
    (form_get req (lit "code") []).

Definition translate_completion (req : request) : completion :=
  wrapper_completion
    (lit "You are a professional translator. Output ONLY the translated text.")
    (lit "Translate this text to "
       ++ form_get req (lit "target_language") (lit "English")
       ++ lit ":" ++ nl :: form_get req (lit "text") []).

(** * Properties *)

(** ** Strings *)

(** The scan of [replace] takes the leftmost occurrences and does not
    overlap them; [strip] and [split] behave as in Python. *)
Example replace_leftmost :
  str_replace (lit "aaaaa") (lit "aa") (lit "b") = lit "bba"
  ∧ str_replace (lit "ab") [] (lit "-") = lit "-a-b-"
  ∧ str_replace (lit "x```json{}```") (lit "```json") [] = lit "x{}```".
Proof. repeat split; vm_compute; reflexivity. Qed.

Example strip_and_split :
  strip (lit "  SLIDE: A ") = lit "SLIDE: A"
  ∧ split_on nl (lit "a" ++ nl :: nl :: lit "b") = [lit "a"; []; lit "b"]
  ∧ split_on nl [] = [[]].
Proof. repeat split; vm_compute; reflexivity. Qed.

Lemma startswith_prefix (s p : str) :
  startswith s p = true ↔ ∃ k, s = p ++ k.
Proof.
  revert s; induction p as [|b p IH]; intros s; simpl.
  - split; [intros _; by exists s | done].
  - destruct s as [|c s]; simpl.
    + split; [done | intros [k Hk]; discriminate].
    + rewrite andb_true_iff, N.eqb_eq, IH. split.
      * intros [-> [k ->]]. by exists k.
      * intros [k Hk]. injection Hk as -> ->. eauto.
Qed.

Lemma occurs_nil (p : str) : occurs p [] → p = [].
Proof.
  intros (a & b & H). symmetry in H.
  apply app_eq_nil in H as [_ H]. by apply app_eq_nil in H as [H _].
Qed.

Lemma occurs_cons (p : str) (c : N) (s : str) :
  occurs p (c :: s) → startswith (c :: s) p = true ∨ occurs p s.
Proof.
  intros (a & b & H). destruct a as [|a0 a]; simpl in H.
  - left. apply startswith_prefix. by exists b.
  - right. injection H as _ ->. by exists a, b.
Qed.

Lemma occurs_cons_r (p : str) (c : N) (s : str) :
  occurs p s → occurs p (c :: s).
Proof. intros (a & b & ->). by exists (c :: a), b. Qed.

Lemma occurs_app_l (p q s : str) : occurs (p ++ q) s → occurs p s.
Proof.
  intros (a & b & ->). exists a, (q ++ b). by rewrite <- (assoc_L (++)).
Qed.

Lemma occurs_inside (p a s b : str) : occurs p s → occurs p (a ++ s ++ b).
Proof.
  intros (a' & b' & ->). exists (a ++ a'), (b' ++ b).
  by rewrite <- !(assoc_L (++)).
Qed.

Lemma replace_from_skip (old new : str) (k : nat) (s : str) :
  replace_from old new k s = replace_from old new 0 (drop k s).
Proof.
  revert k; induction s as [|c s IH]; intros [|k]; simpl; auto.
Qed.

Lemma replace_from_absent (old new : str) (s : str) :
  old ≠ [] → ¬ occurs old s → replace_from old new 0 s = s.
Proof.
  intros Hne. induction s as [|c s IH]; intros Hno; [done|].
  simpl. destruct (startswith (c :: s) old) eqn:Hp.
  - exfalso. apply Hno. apply startswith_prefix in Hp as [k ->].
    by exists [], k.
  - f_equal. apply IH. intros H. by apply Hno, occurs_cons_r.
Qed.

Lemma replace_from_sublist (old : str) (k : nat) (s : str) :
  replace_from old [] k s `sublist_of` s.
Proof.
  revert k; induction s as [|c s IH]; intros k; simpl; [done|].
  destruct k as [|k]; [|by apply sublist_cons].
  destruct (startswith (c :: s) old); simpl.
  - by apply sublist_cons.
  - by apply sublist_skip.
Qed.

Ltac case_eqb :=
  repeat (simpl in *;
          match goal with
          | |- context [N.eqb ?x ?y] =>
              destruct (N.eqb_spec x y); subst; try congruence
          end).

(** Deleting the occurrences of a three-fold repetition [t t t] leaves a
    text that does not begin with [t t t]. *)
Lemma delete_triple_head (t : N) (s : str) :
  startswith (replace_from [t; t; t] [] 0 s) [t; t; t] = false.
Proof.
  remember (length s) as n eqn:Hn.
  revert s Hn; induction (lt_wf n) as [n _ IH]; intros s ->.
  destruct s as [|a [|b [|c s]]]; case_eqb; try done.
  eapply IH; [|reflexivity]. simpl; lia.
Qed.

Lemma replace_from_cons (old new : str) (c : N) (s : str) :
  replace_from old new 0 (c :: s) =
  if startswith (c :: s) old
  then new ++ replace_from old new 0 (drop (pred (length old)) s)
  else c :: replace_from old new 0 s.
Proof.
  cbn [replace_from]. by rewrite (replace_from_skip _ _ (pred _)).
Qed.

Lemma delete_triple_absent (t : N) (s : str) :
  ¬ occurs [t; t; t] (replace_from [t; t; t] [] 0 s).
Proof.
  remember (length s) as n eqn:Hn.
  revert s Hn; induction (lt_wf n) as [n _ IH]; intros s ->.
  destruct s as [|a s].
  - simpl. intros H. by apply occurs_nil in H.
  - pose proof (delete_triple_head t (a :: s)) as Hhead.
    rewrite replace_from_cons in Hhead |- *.
    destruct (startswith (a :: s) [t; t; t]).
    + eapply IH; [|reflexivity]. rewrite length_drop. simpl; lia.
    + intros [H|H]%occurs_cons; [congruence|].
      revert H. eapply IH; [|reflexivity]. simpl; lia.
Qed.

Lemma lstrip_clean_start (s : str) : clean_start (lstrip s).
Proof.
  induction s as [|c s IH]; simpl; [done|].
  by destruct (isspace c) eqn:Hc.
Qed.

Lemma lstrip_fixed (s : str) : clean_start s → lstrip s = s.
Proof. destruct s as [|c s]; simpl; [done|]. by intros ->. Qed.

Lemma lstrip_suffix (s : str) : ∃ a, s = a ++ lstrip s.
Proof.
  induction s as [|c s [a IH]]; simpl; [by exists []|].
  destruct (isspace c); [|by exists []].
  exists (c :: a). simpl. by rewrite <- IH.
Qed.

Lemma rstrip_snoc (s : str) (c : N) :
  rstrip (s ++ [c]) = if isspace c then rstrip s else s ++ [c].
Proof.
  unfold rstrip. rewrite reverse_snoc. simpl.
  destruct (isspace c); [done|].
  by rewrite reverse_cons, reverse_involutive.
Qed.

Lemma rstrip_prefix (s : str) : ∃ b, s = rstrip s ++ b.
Proof.
  unfold rstrip. destruct (lstrip_suffix (reverse s)) as [a Ha].
  exists (reverse a). rewrite <- reverse_app, <- Ha.
  by rewrite reverse_involutive.
Qed.

Lemma rstrip_clean_start (s : str) : clean_start s → clean_start (rstrip s).
Proof.
  induction s as [|c s IH] using rev_ind; [done|].
  intros Hs. rewrite rstrip_snoc. destruct (isspace c) eqn:Hc; [|done].
  apply IH. destruct s as [|d s]; [done|]. exact Hs.
Qed.

Lemma rstrip_clean_end (s : str) : clean_start (reverse (rstrip s)).
Proof.
  unfold rstrip. rewrite reverse_involutive. apply lstrip_clean_start.
Qed.

Lemma rstrip_idemp (s : str) : rstrip (rstrip s) = rstrip s.
Proof.
  unfold rstrip. rewrite reverse_involutive.
  by rewrite (lstrip_fixed _ (lstrip_clean_start _)).
Qed.

Lemma strip_idemp (s : str) : strip (strip s) = strip s.
Proof.
  unfold strip.
  rewrite (lstrip_fixed (rstrip (lstrip s))).
  - apply rstrip_idemp.
  - apply rstrip_clean_start, lstrip_clean_start.
Qed.

Lemma strip_inside (s : str) : ∃ a b, s = a ++ strip s ++ b.
Proof.
  destruct (lstrip_suffix s) as [a Ha].
  destruct (rstrip_prefix (lstrip s)) as [b Hb].
  exists a, b. unfold strip. by rewrite <- Hb.
Qed.

Lemma strip_occurs (p s : str) : occurs p (strip s) → occurs p s.
Proof.
  intros H. destruct (strip_inside s) as (a & b & Hs).
  rewrite Hs. by apply occurs_inside.
Qed.

Lemma strip_sublist (s : str) : strip s `sublist_of` s.
Proof.
  destruct (strip_inside s) as (a & b & Hs). rewrite Hs at 2.
  apply sublist_inserts_l, sublist_inserts_r. done.
Qed.

Lemma strip_clean (s : str) :
  clean_start (strip s) ∧ clean_start (reverse (strip s)).
Proof.
  split.
  - apply rstrip_clean_start, lstrip_clean_start.
  - apply rstrip_clean_end.
Qed.

(** ** Text sanitizer *)

Lemma unfenced_absent (t : str) : ¬ occurs fence (unfenced t).
Proof. apply (delete_triple_absent 96). Qed.

Lemma unfenced_fixed (t : str) : ¬ occurs fence t → unfenced t = t.
Proof.
  intros Hno. unfold unfenced, str_replace. simpl.
  assert (H1 : replace_from fence_html [] 0 t = t).
  { apply replace_from_absent; [done|].
    intros H. apply Hno. by apply (occurs_app_l fence (lit "html")). }
  rewrite H1.
  assert (H2 : replace_from fence_json [] 0 t = t).
  { apply replace_from_absent; [done|].
    intros H. apply Hno. by apply (occurs_app_l fence (lit "json")). }
  rewrite H2. by apply replace_from_absent.
Qed.

Lemma unfenced_sublist (t : str) : unfenced t `sublist_of` t.
Proof.
  unfold unfenced, str_replace; simpl.
  etrans; [apply replace_from_sublist|].
  etrans; [apply replace_from_sublist|].
  apply replace_from_sublist.
Qed.

Lemma clean_ai_text_some (t : str) :
  clean_ai_text (Some t) = strip (unfenced t).
Proof. by destruct t. Qed.

(** ** Deletion and trimming against their specifications *)

Lemma but_last_split (old : str) :
  old ≠ [] → ∃ c, old = but_last old ++ [c].
Proof.
  intros Hne. destruct (decide (old = [])) as [?|_]; [done|].
  induction old as [|c old IH] using rev_ind; [done|].
  exists c. unfold but_last. rewrite length_app. simpl.
  replace (pred (length old + 1)) with (length old) by lia.
  by rewrite take_app_length.
Qed.

Lemma but_last_length (old : str) : length (but_last old) = pred (length old).
Proof. unfold but_last. rewrite length_take. lia. Qed.

(** An occurrence at the very start of [a ++ old ++ b], with [a] not
    empty, is an occurrence within [a ++ but_last old]. *)
Lemma early_occurrence (old a b : str) :
  old ≠ [] → a ≠ [] →
  startswith (a ++ old ++ b) old = true → occurs old (a ++ but_last old).
Proof.
  intros Hold Ha [k Hk]%startswith_prefix.
  destruct (but_last_split old Hold) as [c Hc].
  assert (Hlen : (length old ≤ length (a ++ but_last old))%nat).
  { rewrite length_app, but_last_length. destruct a; [done|]. simpl. lia. }
  assert (Hx : a ++ old ++ b = (a ++ but_last old) ++ (c :: b)).
  { rewrite Hc at 1. by rewrite <- !(assoc_L (++)). }
  exists [], (drop (length old) (a ++ but_last old)). simpl.
  rewrite <- (take_drop (length old) (a ++ but_last old)) at 1.
  f_equal.
  rewrite <- (take_app_le _ (c :: b)) by done.
  rewrite <- Hx, Hk. by rewrite take_app_length.
Qed.

Lemma replace_first (old a b : str) :
  old ≠ [] → ¬ occurs old (a ++ but_last old) →
  replace_from old [] 0 (a ++ old ++ b) = a ++ replace_from old [] 0 b.
Proof.
  intros Hold. induction a as [|c a IH]; intros Hno.
  - destruct old as [|o old]; [done|]. simpl app.
    rewrite replace_from_cons.
    rewrite (proj2 (startswith_prefix (o :: old ++ b) (o :: old)))
      by (by exists b).
    simpl. by rewrite drop_app_length.
  - simpl app. rewrite replace_from_cons.
    destruct (startswith (c :: a ++ old ++ b) old) eqn:Hs.
    + exfalso. apply Hno. by apply (early_occurrence old (c :: a) b).
    + f_equal. apply IH. intros H. by apply Hno, occurs_cons_r.
Qed.

Lemma deleted_replace_only (old s r : str) :
  old ≠ [] → deleted old s r → r = replace_from old [] 0 s.
Proof.
  intros Hold. induction 1 as [s Hno|a b r Hno _ IH].
  - by rewrite replace_from_absent.
  - rewrite replace_first by done. by rewrite IH.
Qed.

Lemma deleted_cons (old : str) (c : N) (s r : str) :
  old ≠ [] → startswith (c :: s) old = false →
  deleted old s r → deleted old (c :: s) (c :: r).
Proof.
  intros Hold Hs Hdel. destruct Hdel as [s Hno|a b r Hno Hdel].
  - apply deleted_none. intros [H|H]%occurs_cons; [congruence|done].
  - apply (deleted_first old (c :: a) b r); [|done].
    intros [H|H]%occurs_cons; [|done].
    apply startswith_prefix in H as [k Hk].
    destruct (but_last_split old Hold) as [d Hd].
    assert (Hp : startswith (c :: a ++ old ++ b) old = true).
    { apply startswith_prefix. exists (k ++ d :: b).
      assert (Hk' : (c :: a) ++ but_last old = old ++ k) by exact Hk.
      transitivity (((c :: a) ++ but_last old) ++ d :: b).
      - rewrite <- (assoc_L (++)).
        change (c :: a ++ old ++ b) with ((c :: a) ++ old ++ b). f_equal.
        rewrite Hd at 1. by rewrite <- (assoc_L (++)).
      - rewrite Hk'. by rewrite <- (assoc_L (++)). }
    simpl in Hs. congruence.
Qed.

Lemma replace_deleted (old s : str) :
  old ≠ [] → deleted old s (replace_from old [] 0 s).
Proof.
  intros Hold. remember (length s) as n eqn:Hn.
  revert s Hn; induction (lt_wf n) as [n _ IH]; intros s ->.
  destruct s as [|c s].
  - apply deleted_none. intros H%occurs_nil. done.
  - rewrite replace_from_cons.
    destruct (startswith (c :: s) old) eqn:Hs.
    + pose proof Hs as [k Hk]%startswith_prefix.
      assert (Hdrop : drop (pred (length old)) s = k).
      { destruct old as [|o old]; [done|]. simpl in *.
        injection Hk as _ ->. by rewrite drop_app_length. }
      rewrite Hdrop, Hk. simpl.
      apply (deleted_first old [] k).
      * simpl. intros (a & b & H). apply (f_equal length) in H.
        rewrite but_last_length, !length_app in H.
        destruct old; [done|]. simpl in H. lia.
      * eapply IH; [|reflexivity]. rewrite Hk, length_app.
        destruct old; [done|]. simpl. lia.
    + apply deleted_cons; [done..|].
      eapply IH; [|reflexivity]. simpl. lia.
Qed.

Lemma lstrip_blank (l s : str) :
  Forall (λ c, isspace c = true) l → lstrip (l ++ s) = lstrip s.
Proof. induction 1 as [|c l Hc _ IH]; simpl; [done|]. by rewrite Hc. Qed.

Lemma lstrip_split (s : str) :
  ∃ l, s = l ++ lstrip s ∧ Forall (λ c, isspace c = true) l.
Proof.
  induction s as [|c s (l & Hs & Hl)]; simpl; [by exists []|].
  destruct (isspace c) eqn:Hc; [|by exists []].
  exists (c :: l). split; [simpl; by rewrite <- Hs | by apply Forall_cons].
Qed.

Lemma strip_trimmed (s : str) : trimmed s (strip s).
Proof.
  destruct (lstrip_split s) as (l & Hs & Hl).
  destruct (lstrip_split (reverse (lstrip s))) as (r & Hr & Hrl).
  exists l, (reverse r). repeat split.
  - rewrite Hs at 1. f_equal. unfold strip, rstrip.
    rewrite <- reverse_app, <- Hr. by rewrite reverse_involutive.
  - done.
  - by apply Forall_reverse.
  - apply strip_clean.
  - apply strip_clean.
Qed.

Lemma trimmed_strip_only (s t : str) : trimmed s t → t = strip s.
Proof.
  intros (l & r & -> & Hl & Hr & Ht & Ht').
  unfold strip. rewrite lstrip_blank by done.
  destruct t as [|c t].
  - simpl. rewrite <- (app_nil_r r) at 1. rewrite lstrip_blank by done.
    done.
  - simpl in Ht. simpl. rewrite Ht. unfold rstrip.
    change (c :: t ++ r) with ((c :: t) ++ r).
    rewrite reverse_app, lstrip_blank by (by apply Forall_reverse).
    by rewrite lstrip_fixed, reverse_involutive.
Qed.

Lemma unfenced_steps (t : str) :
  unfenced t
  = replace_from fence [] 0
      (replace_from fence_json [] 0 (replace_from fence_html [] 0 t)).
Proof. reflexivity. Qed.

(** C3: [clean_ai_text x] is exactly the text obtained from [x] by
    deleting the occurrences of [```html], then those of [```json], then
    those of [```], each time from the left and without overlap, and by
    trimming the whitespace at both ends.  Hence it holds no occurrence
    of any of the three markers, only deletes characters and has no
    leading or trailing whitespace; [None] and the empty string give the
    empty string; and the function is idempotent. *)
Theorem clean_ai_text_spec :
  (∀ x y : str,
      y = clean_ai_text (Some x) ↔
      ∃ r1 r2 r3,
        deleted fence_html x r1 ∧ deleted fence_json r1 r2
        ∧ deleted fence r2 r3 ∧ trimmed r3 y)
  ∧ (∀ x : str,
      let r := clean_ai_text (Some x) in
      ¬ occurs fence_html r ∧ ¬ occurs fence_json r ∧ ¬ occurs fence r
      ∧ r `sublist_of` x
      ∧ clean_start r ∧ clean_start (reverse r))
  ∧ clean_ai_text None = []
  ∧ clean_ai_text (Some []) = []
  ∧ (∀ x : option str,
        clean_ai_text (Some (clean_ai_text x)) = clean_ai_text x).
Proof.
  assert (Hno : ∀ x, ¬ occurs fence (clean_ai_text (Some x))).
  { intros x. rewrite clean_ai_text_some.
    intros H%strip_occurs. by apply unfenced_absent in H. }
  split; [|split; [|split; [done|split; [done|]]]].
  - intros x y. rewrite clean_ai_text_some, unfenced_steps. split.
    + intros ->. eexists _, _, _.
      split; [by apply replace_deleted|].
      split; [by apply replace_deleted|].
      split; [by apply replace_deleted|].
      apply strip_trimmed.
    + intros (r1 & r2 & r3 & H1 & H2 & H3 & Ht).
      apply deleted_replace_only in H1 as ->; [|done].
      apply deleted_replace_only in H2 as ->; [|done].
      apply deleted_replace_only in H3 as ->; [|done].
      by apply trimmed_strip_only.
  - intros x r. subst r. repeat split.
    + intros H. apply (Hno x). by apply (occurs_app_l fence (lit "html")).
    + intros H. apply (Hno x). by apply (occurs_app_l fence (lit "json")).
    + apply Hno.
    + rewrite clean_ai_text_some. etrans; [apply strip_sublist|].
      apply unfenced_sublist.
    + rewrite clean_ai_text_some. apply strip_clean.
    + rewrite clean_ai_text_some. apply strip_clean.
  - intros [x|]; [|done].
    rewrite (clean_ai_text_some (clean_ai_text _)).
    rewrite unfenced_fixed by apply Hno.
    rewrite clean_ai_text_some. apply strip_idemp.
Qed.

(** The order of the three deletions matters: the longer markers go
    first, so that the word after a fence goes with it. *)
Example clean_ai_text_fenced :
  clean_ai_text (Some (lit "```html<p>hi</p>``` ")) = lit "<p>hi</p>"
  ∧ clean_ai_text (Some (lit " ```json{}``` ```")) = lit "{}".
Proof. split; vm_compute; reflexivity. Qed.

(** ** Usage counter *)

Lemma dict_get_set_eq {V} (k : str) (v : V) (d : dict V) :
  dict_get k (dict_set k v d) = Some v.
Proof.
  induction d as [|[k' v'] d IH]; simpl.
  - by rewrite decide_True.
  - destruct (decide (k' = k)) as [->|Hne]; simpl.
    + by rewrite decide_True.
    + by rewrite decide_False.
Qed.

Lemma dict_get_set_ne {V} (k k0 : str) (v : V) (d : dict V) :
  k ≠ k0 → dict_get k0 (dict_set k v d) = dict_get k0 d.
Proof.
  intros Hne. induction d as [|[k' v'] d IH]; simpl.
  - by rewrite decide_False.
  - destruct (decide (k' = k)) as [->|Hk]; simpl.
    + by rewrite !decide_False.
    + by rewrite IH.
Qed.

Lemma dict_get_keys {V} (k : str) (d : dict V) :
  k ∈ keys d ↔ is_Some (dict_get k d).
Proof.
  unfold keys. induction d as [|[k' v'] d IH]; simpl.
  - split; [by intros ?%elem_of_nil | by intros [? ?]].
  - rewrite elem_of_cons. destruct (decide (k' = k)) as [->|Hne].
    + split; eauto.
    + rewrite IH. split; [intros [?|?]; [congruence|done] | eauto].
Qed.

(** The effect of one call on a dictionary that has the key. *)
Lemma increment_stat_present (field : str) (v : Z) (st : state) :
  dict_get field (global_stats st) = Some v →
  increment_stat field st =
    (Returns tt,
     set_global_stats (dict_set field (v + 1) (global_stats st)) st).
Proof.
  intros H. unfold increment_stat, bind, gets, dict_mem, dict_item, modify.
  simpl. by rewrite H.
Qed.

Lemma increment_stat_absent (field : str) (st : state) :
  dict_get field (global_stats st) = None →
  increment_stat field st = (Returns tt, st).
Proof.
  intros H. unfold increment_stat, bind, gets, dict_mem, ret.
  simpl. by rewrite H.
Qed.

(** A call never raises, and touches nothing but the counters. *)
Lemma increment_stat_returns (field : str) (st : state) :
  ∃ g, increment_stat field st = (Returns tt, set_global_stats g st).
Proof.
  destruct (dict_get field (global_stats st)) as [v|] eqn:H.
  - eexists. by apply increment_stat_present.
  - exists (global_stats st). rewrite increment_stat_absent by done.
    by destruct st.
Qed.

Lemma times_increment (field : str) (n : nat) (v : Z) (st : state) :
  dict_get field (global_stats st) = Some v →
  ∃ st', times n (increment_stat field) st = (Returns tt, st')
         ∧ dict_get field (global_stats st') = Some (v + Z.of_nat n).
Proof.
  revert v st; induction n as [|n IH]; intros v st H.
  - exists st. split; [done|]. by rewrite Z.add_0_r.
  - destruct (IH (v + 1)
                (set_global_stats (dict_set field (v + 1) (global_stats st)) st))
      as (st' & Hrun & Hget).
    { simpl. apply dict_get_set_eq. }
    exists st'. split.
    + simpl. unfold bind at 1. by rewrite (increment_stat_present _ v).
    + rewrite Hget. f_equal. lia.
Qed.

(** C1: from the zeroed counters, [n] calls on a recognized category
    return normally and leave that counter at [n]; a call on a key that is
    no counter returns normally and changes nothing. *)
Theorem increment_stat_counts (field : str) :
  (field ∈ keys initial_stats →
   ∀ (st : state) (n : nat),
     global_stats st = initial_stats →
     ∃ st', times n (increment_stat field) st = (Returns tt, st')
            ∧ dict_get field (global_stats st') = Some (Z.of_nat n))
  ∧ (∀ st : state,
       field ∉ keys (global_stats st) →
       increment_stat field st = (Returns tt, st)).
Proof.
  split.
  - intros Hin st n Hst.
    assert (Hzero : dict_get field (global_stats st) = Some 0).
    { rewrite Hst. unfold keys in Hin. simpl in Hin.
      repeat (apply elem_of_cons in Hin as [->|Hin]; [by vm_compute|]).
      by apply elem_of_nil in Hin. }
    destruct (times_increment field n 0 st Hzero) as (st' & Hrun & Hget).
    exists st'. by rewrite Hget in *.
  - intros st Hout. apply increment_stat_absent.
    destruct (dict_get field (global_stats st)) eqn:H; [|done].
    exfalso. apply Hout, dict_get_keys. by rewrite H.
Qed.

Lemma increment_stat_counts_witness :
  (∃ st', times 3 (increment_stat (lit "chat_msgs")) boot = (Returns tt, st')
          ∧ dict_get (lit "chat_msgs") (global_stats st') = Some 3)
  ∧ increment_stat (lit "unknown") boot = (Returns tt, boot).
Proof.
  split.
  - apply (proj1 (increment_stat_counts (lit "chat_msgs"))).
    + apply dict_get_keys. vm_compute. eauto.
    + reflexivity.
  - apply (proj2 (increment_stat_counts (lit "unknown"))).
    rewrite dict_get_keys. vm_compute. by intros [? ?].
Defined.

(** ** Auth gate *)

Lemma json_is_str_true (v : json) (s : str) :
  json_is_str v s = true ↔ v = JStr s.
Proof.
  destruct v; simpl; try (split; [done | discriminate]).
  rewrite bool_decide_eq_true. split; [by intros -> | by intros [= ->]].
Qed.

Lemma login_accepts (cfg : config) (req : request) (d : list (str * json))
    (st : state) :
  json_body req = JObj d →
  credentials_match cfg d →
  login cfg req st =
    (Returns success_reply, set_sess (set_is_admin (Some true) (sess st)) st).
Proof.
  intros Hd [Hu Hp]. unfold login, bind, json_get. rewrite Hd. simpl.
  rewrite Hu. simpl. rewrite bool_decide_eq_true_2 by done.
  rewrite Hp. simpl. by rewrite bool_decide_eq_true_2.
Qed.

Lemma login_rejects (cfg : config) (req : request) (d : list (str * json))
    (st : state) :
  json_body req = JObj d →
  ¬ credentials_match cfg d →
  login cfg req st = (Returns invalid_reply, st).
Proof.
  intros Hd Hno. unfold login, bind, json_get. rewrite Hd. simpl.
  destruct (json_is_str (default JNull (dict_get (lit "username") d))
              (ADMIN_USER cfg)) eqn:Hu; [|done].
  destruct (json_is_str (default JNull (dict_get (lit "password") d))
              (ADMIN_PASS cfg)) eqn:Hp; [|done].
  exfalso. apply Hno. apply json_is_str_true in Hu, Hp. split.
  - destruct (dict_get (lit "username") d); simpl in Hu; by subst.
  - destruct (dict_get (lit "password") d); simpl in Hp; by subst.
Qed.

(** C2: for a fresh session [check_auth] answers false; a login whose body
    carries exactly the configured credentials succeeds, after which
    [check_auth] answers true, and after a logout false again; a login
    with other credentials is answered 401 and changes nothing. *)
Theorem auth_gate_cycle (cfg : config) (req : request)
    (d : list (str * json)) :
  json_body req = JObj d →
  (∀ st : state,
      is_admin (sess st) = None →
      check_auth st = (Returns (auth_reply false), st)
      ∧ (credentials_match cfg d →
         ∃ st1 st2,
           login cfg req st = (Returns success_reply, st1)
           ∧ check_auth st1 = (Returns (auth_reply true), st1)
           ∧ logout st1 = (Returns success_reply, st2)
           ∧ check_auth st2 = (Returns (auth_reply false), st2)))
  ∧ (∀ st : state,
        ¬ credentials_match cfg d →
        login cfg req st = (Returns invalid_reply, st)
        ∧ (is_admin (sess st) = None →
           check_auth st = (Returns (auth_reply false), st))).
Proof.
  intros Hd. split.
  - intros st Hfresh. split.
    + unfold check_auth, bind, gets, reply, ret, session_is_admin.
      by rewrite Hfresh.
    + intros Hok. eexists _, _.
      split; [by apply (login_accepts cfg req d)|].
      split; [done|]. split; done.
  - intros st Hno. split; [by apply (login_rejects cfg req d)|].
    intros Hfresh.
    unfold check_auth, bind, gets, reply, ret, session_is_admin.
    by rewrite Hfresh.
Qed.

Lemma auth_gate_cycle_witness :
  (∃ st1 st2,
      login default_config (json_request (JObj good_login)) boot
        = (Returns success_reply, st1)
      ∧ check_auth st1 = (Returns (auth_reply true), st1)
      ∧ logout st1 = (Returns success_reply, st2)
      ∧ check_auth st2 = (Returns (auth_reply false), st2))
  ∧ login default_config (json_request (JObj bad_login)) boot
      = (Returns invalid_reply, boot).
Proof.
  split.
  - refine (proj2 (proj1 (auth_gate_cycle default_config
              (json_request (JObj good_login)) good_login eq_refl)
              boot eq_refl) _).
    split; reflexivity.
  - refine (proj1 (proj2 (auth_gate_cycle default_config
              (json_request (JObj bad_login)) bad_login eq_refl) boot _)).
    intros [_ H]. vm_compute in H. discriminate H.
Defined.

(** ** LLM wrapper and the pure-text handlers *)

Lemma get_groq_response_no_key {image} (cfg : config) (E : externals image)
    (system_prompt user_prompt : str) (st : state) :
  API_KEY cfg = None →
  get_groq_response cfg E system_prompt user_prompt st = (Returns None, st).
Proof. intros H. unfold get_groq_response. by rewrite H. Qed.

Lemma no_key_completion_is_null {image} (cfg : config) (E : externals image) :
  API_KEY cfg = None → completion_is_null cfg E.
Proof. intros H s u st. by rewrite get_groq_response_no_key. Qed.

Ltac step_increment field st :=
  let g := fresh "g" in
  let Hg := fresh "Hg" in
  destruct (increment_stat_returns field st) as [g Hg];
  unfold bind at 1; rewrite Hg.

(** C4: when the completion is null the four pure-text handlers answer
    200 with success true; [generate_minutes], [generate_email] and
    [review_code] give the text "AI Service Busy", [translate] gives the
    text "Error". *)
Theorem pure_text_fallback {image} (cfg : config) (E : externals image)
    (req : request) (st : state) :
  completion_is_null cfg E →
  (generate_minutes cfg E req st).1
    = Returns (text_reply (lit "minutes") (lit "AI Service Busy"))
  ∧ (generate_email cfg E req st).1
    = Returns (text_reply (lit "email_content") (lit "AI Service Busy"))
  ∧ (review_code cfg E req st).1
    = Returns (text_reply (lit "review") (lit "AI Service Busy"))
  ∧ (translate cfg E req st).1
    = Returns (text_reply (lit "translation") (lit "Error")).
Proof.
  intros Hnull. repeat split.
  - unfold generate_minutes. step_increment (lit "text_gen") st.
    unfold bind. specialize (Hnull
      (lit "You are a secretary. Convert raw notes into professional Meeting Minutes. Use Markdown.")
      (lit "Here are the notes:" ++ nl :: form_get req (lit "notes") [])
      (set_global_stats g st)).
    destruct (get_groq_response _ _ _ _ _) as [o st']. simpl in Hnull.
    by subst o.
  - unfold generate_email. step_increment (lit "text_gen") st.
    unfold bind. specialize (Hnull
      (lit "You are a professional email drafter.")
      (lit "Write an email to " ++ form_get req (lit "recipient") (lit "Team")
         ++ lit " about: " ++ form_get req (lit "topic") (lit "Update"))
      (set_global_stats g st)).
    destruct (get_groq_response _ _ _ _ _) as [o st']. simpl in Hnull.
    by subst o.
  - unfold review_code. step_increment (lit "code_review") st.
    unfold bind. specialize (Hnull
      (lit "You are a Senior Developer. Review this code, find bugs, and suggest fixes. Use Markdown.")
      (form_get req (lit "code") [])
      (set_global_stats g st)).
    destruct (get_groq_response _ _ _ _ _) as [o st']. simpl in Hnull.
    by subst o.
  - unfold translate. step_increment (lit "text_gen") st.
    unfold bind. specialize (Hnull
      (lit "You are a professional translator. Output ONLY the translated text.")
      (lit "Translate this text to "
         ++ form_get req (lit "target_language") (lit "English")
         ++ lit ":" ++ nl :: form_get req (lit "text") [])
      (set_global_stats g st)).
    destruct (get_groq_response _ _ _ _ _) as [o st']. simpl in Hnull.
    by subst o.
Qed.

Lemma pure_text_fallback_witness :
  (translate default_config offline
     (form_request [(lit "text", lit "bonjour")]) boot).1
  = Returns (text_reply (lit "translation") (lit "Error")).
Proof.
  refine (proj2 (proj2 (proj2 (pure_text_fallback default_config offline
            (form_request [(lit "text", lit "bonjour")]) boot _)))).
  intros system_prompt user_prompt st. reflexivity.
Defined.

(** ** Stats and report *)

(** C5, as the code has it: for a caller who is no admin [get_stats]
    answers 200 with cpu 0, ram 0 and the current usage counters, invoking
    no probe and changing nothing, and [download_report] answers 401
    "Unauthorized". *)
Theorem stats_for_guests {image} (E : externals image) (st : state) :
  session_is_admin (sess st) = false →
  get_stats E st
    = (Returns {| status := 200;
                  content := stats_body (JInt 0) (JInt 0) (global_stats st) |},
       st)
  ∧ download_report E st = (Returns unauthorized_reply, st).
Proof.
  intros Hguest. split.
  - unfold get_stats, bind, gets, reply, ret. by rewrite Hguest.
  - unfold download_report, bind, gets, reply, ret. by rewrite Hguest.
Qed.

Lemma stats_for_guests_witness :
  get_stats offline after_one_chat
    = (Returns {| status := 200;
                  content := stats_body (JInt 0) (JInt 0)
                               (global_stats after_one_chat) |},
       after_one_chat)
  ∧ download_report offline after_one_chat
    = (Returns unauthorized_reply, after_one_chat).
Proof. apply (stats_for_guests offline after_one_chat). reflexivity. Defined.

(** C5 as stated fails: after one chat request a caller who is no admin is
    shown the counter [chat_msgs] at 1, not a zeroed usage map. *)
Lemma stats_for_guests_not_zeroed :
  session_is_admin (sess after_one_chat) = false
  ∧ (get_stats offline after_one_chat).1
    = Returns {| status := 200;
                 content := stats_body (JInt 0) (JInt 0)
                              (dict_set (lit "chat_msgs") 1 initial_stats) |}
  ∧ (get_stats offline after_one_chat).1
    ≠ Returns {| status := 200;
                 content := stats_body (JInt 0) (JInt 0) initial_stats |}.
Proof.
  split; [reflexivity|]. split; [reflexivity|].
  intros H. vm_compute in H. discriminate H.
Qed.

(** ** Chat *)






(** ** Cleanup sweeper *)

Lemma expired_spec (now mt : Q) :
  expired now mt = true ↔ (1800 < now - mt)%Q.
Proof.
  unfold expired. rewrite negb_true_iff. split.
  - intros H. apply Qnot_le_lt. intros Hle.
    apply Qle_bool_iff in Hle. congruence.
  - intros H. destruct (Qle_bool (now - mt) 1800) eqn:Hb; [|done].
    apply Qle_bool_iff in Hb. by apply Qlt_not_le in H.
Qed.

Lemma set_static_folder_same (st : state) :
  set_static_folder (static_folder st) st = st.
Proof. by destruct st. Qed.

Lemma sweep_file_run (now : Q) (f : str) (st : state) :
  sweep_file now f st =
    (Returns tt, set_static_folder (sweep_one now (static_folder st) f) st).
Proof.
  unfold sweep_file, sweep_one, sweepable, bind, os_path_isfile, gets,
    os_path_getmtime, try_except, os_remove, ret.
  destruct (static_folder st !! f) as [e|] eqn:He; simpl.
  - destruct (regular e); simpl; [|by rewrite set_static_folder_same].
    rewrite He.
    destruct (expired now (mtime e)); simpl;
      [|by rewrite set_static_folder_same].
    rewrite He. destruct (removable e); simpl; [done|].
    by rewrite set_static_folder_same.
  - by rewrite set_static_folder_same.
Qed.

Lemma for_each_sweep (now : Q) (names : list str) (st : state) :
  for_each names (sweep_file now) st =
    (Returns tt,
     set_static_folder (foldl (sweep_one now) (static_folder st) names) st).
Proof.
  revert st; induction names as [|f names IH]; intros st; simpl.
  - by rewrite set_static_folder_same.
  - unfold bind. rewrite sweep_file_run, IH. by destruct st.
Qed.

Lemma sweep_one_lookup (now : Q) (m : gmap str entry) (f f0 : str) :
  sweep_one now m f !! f0 =
    if decide (f0 = f) then m !! f0 ≫= keep_unless_swept now else m !! f0.
Proof.
  unfold sweep_one, keep_unless_swept.
  destruct (decide (f0 = f)) as [->|Hne].
  - destruct (m !! f) as [e|] eqn:He; simpl; [|by rewrite He].
    destruct (sweepable now e); [by rewrite lookup_delete_eq | by rewrite He].
  - destruct (m !! f) as [e|]; [|done].
    destruct (sweepable now e); [by rewrite lookup_delete_ne | done].
Qed.

Lemma foldl_sweep_lookup (now : Q) (names : list str) (m : gmap str entry)
    (f0 : str) :
  foldl (sweep_one now) m names !! f0 =
    if decide (f0 ∈ names) then m !! f0 ≫= keep_unless_swept now else m !! f0.
Proof.
  revert m; induction names as [|f names IH]; intros m.
  - destruct (decide (f0 ∈ [])) as [H|H]; [by apply elem_of_nil in H | done].
  - cbn [foldl]. rewrite IH, sweep_one_lookup.
    destruct (decide (f0 ∈ f :: names)) as [Hin|Hout];
      destruct (decide (f0 ∈ names)) as [Hin'|Hout'];
      destruct (decide (f0 = f)) as [->|Hne]; try done.
    all: try (exfalso; apply Hout, elem_of_cons; by auto).
    all: try (apply elem_of_cons in Hin as [?|?]; done).
    destruct (m !! f) as [e|]; simpl; [|done].
    unfold keep_unless_swept. destruct (sweepable now e) eqn:Hs; simpl;
      [done | by rewrite Hs].
Qed.

Lemma listed_names (m : gmap str entry) (f : str) :
  f ∈ (map_to_list m).*1 ↔ is_Some (m !! f).
Proof.
  rewrite list_elem_of_fmap. split.
  - intros ([f' e] & -> & Hin). apply elem_of_map_to_list in Hin. eauto.
  - intros [e He]. exists (f, e). split; [done|].
    by apply elem_of_map_to_list.
Qed.

(** The folder after one pass. *)
Lemma cleanup_old_files_run (st : state) :
  cleanup_old_files st =
    (Returns tt,
     if listable st
     then set_static_folder
            (foldl (sweep_one (clock st)) (static_folder st)
               (map_to_list (static_folder st)).*1) st
     else st).
Proof.
  unfold cleanup_old_files, try_except, bind, gets, os_listdir.
  destruct (listable st); [|done]. by rewrite for_each_sweep.
Qed.

(** C7: one pass of the sweeper returns normally whatever fails; when the
    folder can be listed it removes every regular file older than 1800
    seconds whose removal succeeds, and it leaves every entry that is at
    most 1800 seconds old, every entry that is no regular file and every
    entry whose removal fails exactly as it was; it creates nothing and
    touches nothing outside the folder. *)
Theorem cleanup_sweep (st : state) :
  ∃ st',
    cleanup_old_files st = (Returns tt, st')
    ∧ (∀ f e,
          listable st = true →
          static_folder st !! f = Some e →
          regular e = true → (1800 < clock st - mtime e)%Q →
          removable e = true →
          static_folder st' !! f = None)
    ∧ (∀ f e,
          static_folder st !! f = Some e →
          (clock st - mtime e <= 1800)%Q →
          static_folder st' !! f = Some e)
    ∧ (∀ f e,
          static_folder st !! f = Some e →
          regular e = false ∨ removable e = false ∨ listable st = false →
          static_folder st' !! f = Some e)
    ∧ (∀ f, static_folder st !! f = None → static_folder st' !! f = None)
    ∧ st' = set_static_folder (static_folder st') st.
Proof.
  eexists. split; [apply cleanup_old_files_run|].
  assert (Hkeep : ∀ f e,
            static_folder st !! f = Some e →
            sweepable (clock st) e = false ∨ listable st = false →
            static_folder
              (if listable st
               then set_static_folder
                      (foldl (sweep_one (clock st)) (static_folder st)
                         (map_to_list (static_folder st)).*1) st
               else st) !! f = Some e).
  { intros f e He Hor. destruct (listable st) eqn:Hl; [|done].
    destruct Hor as [Hs|?]; [|done]. simpl.
    rewrite foldl_sweep_lookup, He. simpl. unfold keep_unless_swept.
    rewrite Hs. by case_decide. }
  split; [|split; [|split; [|split]]].
  - intros f e Hl He Hreg Hold Hrem. rewrite Hl. simpl.
    rewrite foldl_sweep_lookup, decide_True.
    + rewrite He. simpl. unfold keep_unless_swept, sweepable.
      rewrite Hreg, Hrem. apply expired_spec in Hold. by rewrite Hold.
    + apply listed_names. by rewrite He.
  - intros f e He Hnew. apply Hkeep; [done|]. left.
    unfold sweepable. destruct (expired (clock st) (mtime e)) eqn:Hx.
    + apply expired_spec in Hx. by apply Qlt_not_le in Hx.
    + by rewrite andb_false_r.
  - intros f e He Hor. apply Hkeep; [done|].
    destruct Hor as [H|[H|H]]; [left|left|by right]; unfold sweepable.
    + by rewrite H.
    + rewrite H. by rewrite andb_false_r.
  - intros f Hnone. destruct (listable st); [|done]. simpl.
    rewrite foldl_sweep_lookup, Hnone. by case_decide.
  - destruct (listable st); simpl; by destruct st.
Qed.

Lemma cleanup_sweep_witness :
  ∃ st',
    cleanup_old_files sample_store = (Returns tt, st')
    ∧ static_folder st' !! lit "old.pdf" = None
    ∧ static_folder st' !! lit "new.mp3" = sample_folder !! lit "new.mp3"
    ∧ static_folder st' !! lit "dir" = sample_folder !! lit "dir"
    ∧ static_folder st' !! lit "locked.pdf" = sample_folder !! lit "locked.pdf".
Proof.
  destruct (cleanup_sweep sample_store)
    as (st' & Hrun & Hdel & Hnew & Hkeep & _ & _).
  exists st'. split; [exact Hrun|].
  split; [|split; [|split]].
  - eapply Hdel; try reflexivity.
  - eapply Hnew; [reflexivity|]. vm_compute. discriminate.
  - eapply Hkeep; [reflexivity|]. left. reflexivity.
  - eapply Hkeep; [reflexivity|]. right. left. reflexivity.
Defined.

(** ** Presentation builder *)








Lemma get_groq_response_answer {image} (cfg : config) (E : externals image)
    (key system_prompt user_prompt answer : str) (st : state) :
  API_KEY cfg = Some key →
  truthy key = true →
  groq_create E (Some key) (wrapper_completion system_prompt user_prompt)
    = Returns answer →
  get_groq_response cfg E system_prompt user_prompt st
    = (Returns (Some answer), set_invoked (LLM :: invoked st) st).
Proof.
  intros Hkey Htruthy Hanswer. unfold get_groq_response.
  rewrite Hkey. simpl. rewrite Htruthy. simpl.
  unfold try_except, bind, invoke, ret. by rewrite Hanswer.
Qed.

Lemma bind_run {A B} (m : M A) (k : A → M B) (st st1 : state) (a : A) :
  m st = (Returns a, st1) → bind m k st = k a st1.
Proof. intros H. unfold bind. by rewrite H. Qed.

Lemma uuid4_run {image} (E : externals image) (st : state) :
  uuid4 E st = (Returns (uuid4_hex E (uuids st)), set_uuids (S (uuids st)) st).
Proof. done. Qed.

Lemma os_path_exists_present (f : str) (e : entry) (st : state) :
  static_folder st !! f = Some e → os_path_exists f st = (Returns true, st).
Proof.
  intros H. unfold os_path_exists, gets. rewrite H.
  by rewrite bool_decide_eq_true_2.
Qed.


Lemma get_groq_response_frame {image} (cfg : config) (E : externals image)
    (system_prompt user_prompt : str) (st : state) :
  ∃ o l, get_groq_response cfg E system_prompt user_prompt st
         = (Returns o, set_invoked l st).
Proof.
  unfold get_groq_response.
  destruct (negb (truthy (default [] (API_KEY cfg)))).
  - exists None, (invoked st). unfold ret. by destruct st.
  - unfold try_except, bind, invoke, ret.
    destruct (groq_create E (API_KEY cfg) _); eauto.
Qed.

Lemma save_bytes_run (D : disk) (f : str) (b : bytes) (st : state) :
  save_bytes D f b st =
    match attempt D f with
    | Written =>
        (Returns tt,
         set_static_folder (<[f := new_file st b]> (static_folder st)) st)
    | Refused => (Raises (lit "OSError"), st)
    | Cut n =>
        (Raises (lit "OSError"),
         set_static_folder (<[f := new_file st (take n b)]> (static_folder st)) st)
    end.
Proof. unfold save_bytes. by destruct (attempt D f). Qed.


(** The wrapper either has no answer, and yields nothing true, or yields
    the non-empty answer of the provider. *)
Lemma get_groq_response_cases {image} (cfg : config) (E : externals image)
    (system_prompt user_prompt : str) (st : state) :
  (no_answer cfg E (wrapper_completion system_prompt user_prompt)
   ∧ ∃ o l, get_groq_response cfg E system_prompt user_prompt st
              = (Returns o, set_invoked l st)
            ∧ truthy (default [] o) = false)
  ∨ (¬ no_answer cfg E (wrapper_completion system_prompt user_prompt)
     ∧ ∃ ai, get_groq_response cfg E system_prompt user_prompt st
               = (Returns (Some ai), set_invoked (LLM :: invoked st) st)
             ∧ truthy ai = true).
Proof.
  unfold get_groq_response, no_answer.
  destruct (truthy (default [] (API_KEY cfg))) eqn:Hkey; cbn [negb].
  - unfold try_except, bind, invoke, ret.
    destruct (groq_create E (API_KEY cfg) _) as [[|c ai]|e] eqn:Hc.
    + left. split; [by right; right|]. by exists (Some []), (LLM :: invoked st).
    + right. split; [|by exists (c :: ai)].
      intros [H|[[e H]|H]]; discriminate H.
    + left. split; [right; left; by exists e|].
      by exists None, (LLM :: invoked st).
  - left. split; [by left|]. exists None, (invoked st).
    unfold ret. by destruct st.
Qed.













(** A template that cannot be written and a provider that is down: the
    request ends in a 500 of the framework instead of "AI Failed". *)
Example make_ppt_refused_template :
  (serve (make_ppt read_only_disk keyed_config offline template_request) boot).1
  = {| status := 500; content := Page (lit "Internal Server Error") |}.
Proof. vm_compute. reflexivity. Qed.

(** A provider that answers the empty text: "AI Failed", and the staged
    template is gone. *)
Example make_ppt_empty_answer :
  (make_ppt sound_disk keyed_config mute template_request boot).1
  = Returns ai_failed_reply
  ∧ static_folder
      (make_ppt sound_disk keyed_config mute template_request boot).2 = ∅.
Proof. split; vm_compute; reflexivity. Qed.

(** The outline of the two-slide scenario. *)
Example outline_two_slides :
  outline (outline_lines two_slide_outline)
  = [(lit "A", [lit "x"]); (lit "B", [lit "y"])].
Proof. vm_compute. reflexivity. Qed.


(** ** File tools *)



(** ** Input validation *)

Lemma get_groq_response_run {image} (cfg : config) (E : externals image)
    (system_prompt user_prompt : str) (st : state) :
  get_groq_response cfg E system_prompt user_prompt st
  = (Returns (wrapper_answer cfg E (wrapper_completion system_prompt user_prompt)),
     set_invoked (wrapper_calls cfg ++ invoked st) st).
Proof.
  unfold get_groq_response, wrapper_answer, wrapper_calls.
  destruct (truthy (default [] (API_KEY cfg))); cbn [negb].
  - unfold try_except, bind, invoke, ret.
    by destruct (groq_create E (API_KEY cfg) _).
  - unfold ret. by destruct st.
Qed.

(** A pure-text handler is its counter, one call of the wrapper and a
    200 reply: there is no other path. *)
Lemma pure_text_run {image} (cfg : config) (E : externals image)
    (field system_prompt user_prompt key fallback : str) (st : state) :
  ∃ g,
    (increment_stat field ;;
     res <- get_groq_response cfg E system_prompt user_prompt ;;
     reply 200 (jsonify [(lit "success", JBool true);
                         (key, JStr (or_else res fallback))])) st
      = (Returns
           (text_reply key
              (or_else
                 (wrapper_answer cfg E
                    (wrapper_completion system_prompt user_prompt))
                 fallback)),
         set_invoked (wrapper_calls cfg ++ invoked st) (set_global_stats g st)).
Proof.
  step_increment field st.
  erewrite bind_run by apply get_groq_response_run.
  by exists g.
Qed.

(** C9, as the code has it: [chat] and [text_to_audio] answer an empty
    text, and [audio_to_text], [video_to_audio], [convert_file] and
    [compress_image] a missing file, with 400 and a structured error,
    having changed nothing but the usage counter and invoked no
    capability.  The four pure-text handlers have no such path: for every
    request they count it, call the wrapper once on a prompt built from
    the form with its defaults (the provider is invoked when a key is
    configured) and answer 200 with the answer of the wrapper, or with
    their fallback text when it has none. *)
Theorem validation_fails_fast {image} (D : disk) (cfg : config) (U : casing)
    (E : externals image) (req : request) (st : state) :
  (message_of req = [] →
   ∃ g, chat cfg E req st
        = (Returns (failure_reply 400 (lit "Empty message")),
           set_global_stats g st))
  ∧ (form_get req (lit "text") [] = [] →
     ∃ g, text_to_audio D E req st
          = (Returns (failure_reply 400 (lit "No text")), set_global_stats g st))
  ∧ (dict_get (lit "file") (files req) = None →
     (∃ g, audio_to_text D E req st
           = (Returns (failure_reply 400 (lit "No file")), set_global_stats g st))
     ∧ (∃ g, video_to_audio D E req st
             = (Returns (failure_reply 400 (lit "No file")), set_global_stats g st))
     ∧ (∃ g, convert_file U E req st
             = (Returns (failure_reply 400 (lit "No file")), set_global_stats g st))
     ∧ (∃ g, compress_image E req st
             = (Returns (failure_reply 400 (lit "No file")), set_global_stats g st)))
  ∧ (∃ g, generate_minutes cfg E req st
          = (Returns
               (text_reply (lit "minutes")
                  (or_else (wrapper_answer cfg E (minutes_completion req))
                     (lit "AI Service Busy"))),
             set_invoked (wrapper_calls cfg ++ invoked st)
               (set_global_stats g st)))
  ∧ (∃ g, generate_email cfg E req st
          = (Returns
               (text_reply (lit "email_content")
                  (or_else (wrapper_answer cfg E (email_completion req))
                     (lit "AI Service Busy"))),
             set_invoked (wrapper_calls cfg ++ invoked st)
               (set_global_stats g st)))
  ∧ (∃ g, review_code cfg E req st
          = (Returns
               (text_reply (lit "review")
                  (or_else (wrapper_answer cfg E (review_completion req))
                     (lit "AI Service Busy"))),
             set_invoked (wrapper_calls cfg ++ invoked st)
               (set_global_stats g st)))
  ∧ (∃ g, translate cfg E req st
          = (Returns
               (text_reply (lit "translation")
                  (or_else (wrapper_answer cfg E (translate_completion req))
                     (lit "Error"))),
             set_invoked (wrapper_calls cfg ++ invoked st)
               (set_global_stats g st))).
Proof.
  split; [|split; [|split; [|split; [|split; [|split]]]]].
  - intros Hmsg. unfold chat. step_increment (lit "chat_msgs") st.
    fold (message_of req). rewrite Hmsg. by exists g.
  - intros Htext. unfold text_to_audio. step_increment (lit "audio_gen") st.
    rewrite Htext. by exists g.
  - intros Hfile. repeat split.
    + unfold audio_to_text. step_increment (lit "transcribe") st.
      rewrite Hfile. by exists g.
    + unfold video_to_audio. step_increment (lit "vid_audio") st.
      rewrite Hfile. by exists g.
    + unfold convert_file. step_increment (lit "file_conv") st.
      rewrite Hfile. by exists g.
    + unfold compress_image. step_increment (lit "compression") st.
      rewrite Hfile. by exists g.
  - apply pure_text_run.
  - apply pure_text_run.
  - apply pure_text_run.
  - apply pure_text_run.
Qed.

Lemma validation_fails_fast_witness :
  (∃ g, chat default_config offline (form_request []) boot
        = (Returns (failure_reply 400 (lit "Empty message")),
           set_global_stats g boot))
  ∧ (∃ g, text_to_audio sound_disk offline (form_request []) boot
          = (Returns (failure_reply 400 (lit "No text")), set_global_stats g boot))
  ∧ (∃ g, audio_to_text sound_disk offline (form_request []) boot
          = (Returns (failure_reply 400 (lit "No file")), set_global_stats g boot))
  ∧ (∃ g, convert_file ascii_only offline (form_request []) boot
          = (Returns (failure_reply 400 (lit "No file")), set_global_stats g boot)).
Proof.
  pose proof (validation_fails_fast sound_disk default_config ascii_only offline
                (form_request []) boot) as (Hchat & Htext & Hfile & _).
  split; [|split; [|split]].
  - apply Hchat. reflexivity.
  - apply Htext. reflexivity.
  - apply Hfile. reflexivity.
  - apply Hfile. reflexivity.
Defined.

(** The pure-text handlers on an empty form: the defaults go into the
    prompt and the provider is asked. *)
Example email_without_fields :
  email_completion (form_request [])
  = wrapper_completion (lit "You are a professional email drafter.")
      (lit "Write an email to Team about: Update")
  ∧ (generate_email keyed_config agreeable (form_request []) boot).1
    = Returns (text_reply (lit "email_content") (lit "ok"))
  ∧ invoked (generate_email keyed_config agreeable (form_request []) boot).2
    = [LLM].
Proof. repeat split; vm_compute; reflexivity. Qed.

(** C9 as stated fails: [generate_minutes] with no notes at all invokes
    the provider and answers 200. *)
Lemma minutes_without_notes :
  form_get (form_request []) (lit "notes") [] = []
  ∧ (generate_minutes keyed_config agreeable (form_request []) boot).1
    = Returns (text_reply (lit "minutes") (lit "ok"))
  ∧ invoked (generate_minutes keyed_config agreeable (form_request []) boot).2
    = [LLM].
Proof. repeat split; vm_compute; reflexivity. Qed.

(** The exits of [make_ppt] that remove the staged template are its two
    returns.  When the loop raises, here on a template without layouts,
    or when the deck cannot be saved, Flask answers 500 and the staged
    template is still in the folder. *)
Example staged_template_left_on_error :
  (serve (make_ppt sound_disk keyed_config
            (scripted (Some two_slide_outline) (Returns bare_deck))
            template_request) boot).1
  = {| status := 500; content := Page (lit "Internal Server Error") |}
  ∧ is_Some
      (static_folder
         (serve (make_ppt sound_disk keyed_config
                   (scripted (Some two_slide_outline) (Returns bare_deck))
                   template_request) boot).2
       !! temp_name (scripted (Some two_slide_outline) (Returns bare_deck)) boot)
  ∧ (serve (make_ppt full_disk keyed_config presenter template_request) boot).1
    = {| status := 500; content := Page (lit "Internal Server Error") |}
  ∧ is_Some
      (static_folder
         (serve (make_ppt full_disk keyed_config presenter template_request)
            boot).2
       !! temp_name presenter boot).
Proof.
  split; [vm_compute; reflexivity|].
  split; [vm_compute; eauto|].
  split; [vm_compute; reflexivity|]. vm_compute. eauto.
Qed.

(** * Further properties of the handlers *)

(** ** Frame rules *)

Lemma keeps_ret {A B} (f : state → B) (a : A) : keeps f (ret a).
Proof. done. Qed.

Lemma keeps_raise {A B} (f : state → B) (e : str) : keeps f (raise (A := A) e).
Proof. done. Qed.

Lemma keeps_gets {A B} (f : state → B) (g : state → A) : keeps f (gets g).
Proof. done. Qed.

Lemma keeps_lift {A B} (f : state → B) (o : outcome A) : keeps f (lift o).
Proof. done. Qed.

Lemma keeps_reply {B} (f : state → B) (code : Z) (b : body) :
  keeps f (reply code b).
Proof. done. Qed.

Lemma keeps_failure {B} (f : state → B) (code : Z) (e : str) :
  keeps f (failure code e).
Proof. done. Qed.

Lemma keeps_bind {A C B} (f : state → B) (m : M A) (k : A → M C) :
  keeps f m → (∀ a, keeps f (k a)) → keeps f (bind m k).
Proof.
  intros Hm Hk st. unfold bind. specialize (Hm st).
  destruct (m st) as [[a|e] st1]; simpl in *; [|done].
  by rewrite Hk.
Qed.

Lemma keeps_try_except {A B} (f : state → B) (m : M A) (h : str → M A) :
  keeps f m → (∀ e, keeps f (h e)) → keeps f (try_except m h).
Proof.
  intros Hm Hh st. unfold try_except. specialize (Hm st).
  destruct (m st) as [[a|e] st1]; simpl in *; [done|].
  by rewrite Hh.
Qed.

Lemma keeps_modify {B} (f : state → B) (g : state → state) :
  (∀ st, f (g st) = f st) → keeps f (modify g).
Proof. intros H st. apply H. Qed.

Lemma keeps_invoke {A B} (f : state → B) (c : capability) (o : outcome A) :
  (∀ l st, f (set_invoked l st) = f st) → keeps f (invoke c o).
Proof. intros H st. apply H. Qed.

Lemma keeps_uuid4 {image B} (f : state → B) (E : externals image) :
  (∀ n st, f (set_uuids n st) = f st) → keeps f (uuid4 E).
Proof. intros H st. apply H. Qed.

Lemma keeps_write_file {B} (f : state → B) (name : str) (b : bytes) :
  (∀ m st, f (set_static_folder m st) = f st) → keeps f (write_file name b).
Proof. intros H st. apply H. Qed.

Lemma keeps_read_file {B} (f : state → B) (name : str) : keeps f (read_file name).
Proof. intros st. unfold read_file. by destruct (static_folder st !! name). Qed.

Lemma keeps_os_path_exists {B} (f : state → B) (name : str) :
  keeps f (os_path_exists name).
Proof. done. Qed.

Lemma keeps_os_remove {B} (f : state → B) (name : str) :
  (∀ m st, f (set_static_folder m st) = f st) → keeps f (os_remove name).
Proof.
  intros H st. unfold os_remove.
  destruct (static_folder st !! name) as [e|]; [|done].
  destruct (removable e); [apply H | done].
Qed.

Lemma keeps_increment_stat {B} (f : state → B) (field : str) :
  (∀ g st, f (set_global_stats g st) = f st) → keeps f (increment_stat field).
Proof.
  intros H st. destruct (increment_stat_returns field st) as [g ->]. apply H.
Qed.

Lemma keeps_get_groq_response {image B} (f : state → B) (cfg : config)
    (E : externals image) (system_prompt user_prompt : str) :
  (∀ l st, f (set_invoked l st) = f st) →
  keeps f (get_groq_response cfg E system_prompt user_prompt).
Proof.
  intros H st.
  destruct (get_groq_response_frame cfg E system_prompt user_prompt st)
    as (o & l & ->).
  apply H.
Qed.

(** Goals [keeps f m] for a handler body [m], by the structure of [m]. *)
Ltac keeps_step :=
  lazymatch goal with
  | |- keeps _ (ret _) => apply keeps_ret
  | |- keeps _ (raise _) => apply keeps_raise
  | |- keeps _ (gets _) => apply keeps_gets
  | |- keeps _ (lift _) => apply keeps_lift
  | |- keeps _ (reply _ _) => apply keeps_reply
  | |- keeps _ (failure _ _) => apply keeps_failure
  | |- keeps _ (read_file _) => apply keeps_read_file
  | |- keeps _ (os_path_exists _) => apply keeps_os_path_exists
  | |- keeps _ (increment_stat _) =>
      apply keeps_increment_stat; intros ? ?; reflexivity
  | |- keeps _ (get_groq_response _ _ _ _) =>
      apply keeps_get_groq_response; intros ? ?; reflexivity
  | |- keeps _ (uuid4 _) => apply keeps_uuid4; intros ? ?; reflexivity
  | |- keeps _ (write_file _ _) =>
      apply keeps_write_file; intros ? ?; reflexivity
  | |- keeps _ (os_remove _) => apply keeps_os_remove; intros ? ?; reflexivity
  | |- keeps _ (invoke _ _) => apply keeps_invoke; intros ? ?; reflexivity
  | |- keeps _ (modify _) => apply keeps_modify; intros ?; reflexivity
  | |- keeps _ (try_except _ _) => apply keeps_try_except; [|intros ?]
  | |- keeps _ (bind _ _) => apply keeps_bind; [|intros ?]
  | |- keeps _ (if ?b then _ else _) => destruct b
  | |- keeps _ (match ?x with _ => _ end) => destruct x
  end.

Ltac keeps_auto := repeat keeps_step.

Lemma counted_once {A} (c : str) (rest : M A) :
  keeps global_stats rest → counts c (increment_stat c ;; rest).
Proof.
  intros Hrest st. unfold bind.
  destruct (increment_stat_returns c st) as [g ->]. apply Hrest.
Qed.

(** ** Usage counters across the handlers *)

(** Every handler counts the request once, at entry, under its own
    category, and does nothing else to the counters: also when it answers
    400 or 500, and when it raises. *)
Theorem handlers_count_at_entry {image} (D : disk) (cfg : config)
    (U : casing) (R : renderer) (E : externals image) (req : request) :
  counts (lit "chat_msgs") (chat cfg E req)
  ∧ counts (lit "text_gen") (generate_minutes cfg E req)
  ∧ counts (lit "text_gen") (generate_email cfg E req)
  ∧ counts (lit "code_review") (review_code cfg E req)
  ∧ counts (lit "text_gen") (translate cfg E req)
  ∧ counts (lit "text_gen") (make_ppt D cfg E req)
  ∧ counts (lit "audio_gen") (text_to_audio D E req)
  ∧ counts (lit "transcribe") (audio_to_text D E req)
  ∧ counts (lit "vid_audio") (video_to_audio D E req)
  ∧ counts (lit "file_conv") (convert_file U E req)
  ∧ counts (lit "compression") (compress_image E req)
  ∧ counts (lit "pdf_gen") (text_to_pdf D R E req)
  ∧ counts (lit "quiz_gen") (generate_quiz D cfg R E req).
Proof.
  repeat split.
  - unfold chat. apply counted_once. keeps_auto.
  - unfold generate_minutes. apply counted_once. keeps_auto.
  - unfold generate_email. apply counted_once. keeps_auto.
  - unfold review_code. apply counted_once. keeps_auto.
  - unfold translate. apply counted_once. keeps_auto.
  - unfold make_ppt. apply counted_once. unfold load_deck, save_bytes.
    keeps_auto.
  - unfold text_to_audio. apply counted_once.
    unfold library_save, save_bytes. keeps_auto.
  - unfold audio_to_text. apply counted_once. unfold save_bytes. keeps_auto.
  - unfold video_to_audio. apply counted_once.
    unfold library_save, save_bytes. keeps_auto.
  - unfold convert_file. apply counted_once. keeps_auto.
  - unfold compress_image. apply counted_once. keeps_auto.
  - unfold text_to_pdf. apply counted_once. unfold render_pdf, open_wb.
    keeps_auto.
  - unfold generate_quiz. apply counted_once. unfold render_pdf, open_wb.
    keeps_auto.
Qed.

(** ** What the handlers leave alone *)

Lemma keeps_cleanup_old_files {B} (f : state → B) :
  (∀ m st, f (set_static_folder m st) = f st) → keeps f cleanup_old_files.
Proof.
  intros H st. rewrite cleanup_old_files_run. simpl.
  destruct (listable st); [apply H | done].
Qed.

(** Only [login], [logout], [chat] and [clear_chat] write the session:
    no other handler, and no pass of the sweeper, changes the admin flag
    or the chat history, whatever the request and whatever fails. *)
Theorem session_untouched {image} (D : disk) (cfg : config) (U : casing)
    (R : renderer) (E : externals image) (req : request) :
  keeps sess check_auth
  ∧ keeps sess (get_stats E)
  ∧ keeps sess (download_report E)
  ∧ keeps sess (generate_minutes cfg E req)
  ∧ keeps sess (generate_email cfg E req)
  ∧ keeps sess (review_code cfg E req)
  ∧ keeps sess (translate cfg E req)
  ∧ keeps sess (generate_quiz D cfg R E req)
  ∧ keeps sess (make_ppt D cfg E req)
  ∧ keeps sess (text_to_audio D E req)
  ∧ keeps sess (audio_to_text D E req)
  ∧ keeps sess (text_to_pdf D R E req)
  ∧ keeps sess (video_to_audio D E req)
  ∧ keeps sess (convert_file U E req)
  ∧ keeps sess (compress_image E req)
  ∧ keeps sess cleanup_old_files.
Proof.
  repeat apply conj.
  - unfold check_auth. keeps_auto.
  - unfold get_stats. keeps_auto.
  - unfold download_report. keeps_auto.
  - unfold generate_minutes. keeps_auto.
  - unfold generate_email. keeps_auto.
  - unfold review_code. keeps_auto.
  - unfold translate. keeps_auto.
  - unfold generate_quiz, render_pdf, open_wb. keeps_auto.
  - unfold make_ppt, load_deck, save_bytes. keeps_auto.
  - unfold text_to_audio, library_save, save_bytes. keeps_auto.
  - unfold audio_to_text, save_bytes. keeps_auto.
  - unfold text_to_pdf, render_pdf, open_wb. keeps_auto.
  - unfold video_to_audio, library_save, save_bytes. keeps_auto.
  - unfold convert_file. keeps_auto.
  - unfold compress_image. keeps_auto.
  - apply keeps_cleanup_old_files. intros ? ?; reflexivity.
Qed.

(** The handlers that produce no artifact never create, overwrite or
    delete a file of the static folder. *)
Theorem folder_untouched {image} (cfg : config) (E : externals image)
    (req : request) :
  keeps static_folder (login cfg req)
  ∧ keeps static_folder logout
  ∧ keeps static_folder check_auth
  ∧ keeps static_folder (get_stats E)
  ∧ keeps static_folder (download_report E)
  ∧ keeps static_folder (chat cfg E req)
  ∧ keeps static_folder clear_chat
  ∧ keeps static_folder (generate_minutes cfg E req)
  ∧ keeps static_folder (generate_email cfg E req)
  ∧ keeps static_folder (review_code cfg E req)
  ∧ keeps static_folder (translate cfg E req).
Proof.
  repeat apply conj.
  - unfold login, json_get, invalid_credentials. keeps_auto.
  - unfold logout. keeps_auto.
  - unfold check_auth. keeps_auto.
  - unfold get_stats. keeps_auto.
  - unfold download_report. keeps_auto.
  - unfold chat. keeps_auto.
  - unfold clear_chat. keeps_auto.
  - unfold generate_minutes. keeps_auto.
  - unfold generate_email. keeps_auto.
  - unfold review_code. keeps_auto.
  - unfold translate. keeps_auto.
Qed.

(** ** LLM wrapper *)

(** The wrapper never raises.  It yields [None] exactly when the key is
    unset or empty or the provider call raises; it calls the provider once
    when there is a key and not at all without one, and changes nothing
    else. *)
Theorem wrapper_never_raises {image} (cfg : config) (E : externals image)
    (system_prompt user_prompt : str) (st : state) :
  ∃ o calls,
    get_groq_response cfg E system_prompt user_prompt st
      = (Returns o, set_invoked (calls ++ invoked st) st)
    ∧ calls = (if truthy (default [] (API_KEY cfg)) then [LLM] else [])
    ∧ (o = None ↔
       truthy (default [] (API_KEY cfg)) = false
       ∨ ∃ e, groq_create E (API_KEY cfg)
                (wrapper_completion system_prompt user_prompt) = Raises e).
Proof.
  unfold get_groq_response.
  destruct (truthy (default [] (API_KEY cfg))) eqn:Hkey; simpl.
  - unfold try_except, bind, invoke, ret.
    destruct (groq_create E (API_KEY cfg) _) as [c|e] eqn:Hcall.
    + exists (Some c), [LLM]. split; [done|]. split; [done|].
      split; [done|]. intros [?|[e ?]]; done.
    + exists None, [LLM]. split; [done|]. split; [done|].
      split; [|done]. intros _. right. by exists e.
  - exists None, []. unfold ret. split; [by destruct st|]. split; [done|].
    split; [|done]. intros _. by left.
Qed.

(** ** Usage counter *)

Lemma dict_set_keys {V} (k : str) (v : V) (d : dict V) :
  is_Some (dict_get k d) → keys (dict_set k v d) = keys d.
Proof.
  unfold keys. induction d as [|[k' v'] d IH]; simpl.
  - by intros [? ?].
  - destruct (decide (k' = k)) as [->|Hne]; simpl; [done|].
    intros H. f_equal. by apply IH.
Qed.

Lemma dict_set_total (k : str) (v w : Z) (d : dict Z) :
  dict_get k d = Some v → total_ops (dict_set k w d) = total_ops d - v + w.
Proof.
  unfold total_ops. induction d as [|[k' v'] d IH]; [done|].
  cbn [dict_get dict_set].
  destruct (decide (k' = k)) as [->|Hne].
  - intros [= ->]. rewrite !fmap_cons. cbn [foldr snd]. lia.
  - intros H. specialize (IH H). rewrite !fmap_cons. cbn [foldr snd]. lia.
Qed.

(** A call of [increment_stat] never adds, removes or reorders a counter;
    it raises the sum of all counters by one when the key is a counter
    and by nothing otherwise; and it leaves every other counter at its
    value. *)
Theorem increment_stat_total (field : str) (st : state) :
  let st' := (increment_stat field st).2 in
  keys (global_stats st') = keys (global_stats st)
  ∧ total_ops (global_stats st')
    = total_ops (global_stats st)
      + (if dict_mem field (global_stats st) then 1 else 0)
  ∧ (∀ k, k ≠ field →
       dict_get k (global_stats st') = dict_get k (global_stats st)).
Proof.
  unfold dict_mem.
  destruct (dict_get field (global_stats st)) as [v|] eqn:Hget.
  - rewrite (increment_stat_present field v st Hget). simpl.
    split; [apply dict_set_keys; by rewrite Hget|].
    split; [rewrite (dict_set_total field v) by done; lia|].
    intros k Hk. by apply dict_get_set_ne.
  - rewrite (increment_stat_absent field st Hget). simpl.
    split; [done|]. split; [lia|done].
Qed.

(** ** Stats and report for the administrator *)



(** [download_report] does not guard its probes: for an administrator a
    probe that raises makes the handler raise, which Flask answers with
    500, where [get_stats] answers 200 with zeros. *)
Theorem download_report_probe_failure {image} (E : externals image)
    (st : state) (e : str) :
  session_is_admin (sess st) = true →
  cpu_percent E = Raises e
  ∨ (∃ c, cpu_percent E = Returns c) ∧ virtual_memory_percent E = Raises e →
  (download_report E st).1 = Raises e
  ∧ status (serve (download_report E) st).1 = 500
  ∧ status (serve (get_stats E) st).1 = 200.
Proof.
  intros Hadmin Hfail.
  unfold serve, download_report, get_stats, bind, gets, try_except, invoke,
    reply, ret.
  rewrite Hadmin. simpl.
  destruct Hfail as [-> | [[c ->] ->]]; done.
Qed.

Lemma download_report_probe_failure_witness :
  (download_report probeless admin_state).1 = Raises (lit "AccessDenied")
  ∧ status (serve (download_report probeless) admin_state).1 = 500
  ∧ status (serve (get_stats probeless) admin_state).1 = 200.
Proof.
  apply (download_report_probe_failure probeless admin_state
           (lit "AccessDenied")); [reflexivity | by left].
Defined.

(** ** Lines *)

Lemma split_on_line (l rest : str) :
  nl ∉ l → split_on nl (l ++ nl :: rest) = l :: split_on nl rest.
Proof.
  induction l as [|c l IH]; intros Hl; simpl.
  - done.
  - apply not_elem_of_cons in Hl as [Hc Hl].
    destruct (N.eqb_spec c nl) as [->|_]; [done|].
    by rewrite IH.
Qed.

Lemma split_on_single (l : str) : nl ∉ l → split_on nl l = [l].
Proof.
  induction l as [|c l IH]; intros Hl; simpl; [done|].
  apply not_elem_of_cons in Hl as [Hc Hl].
  destruct (N.eqb_spec c nl) as [->|_]; [done|].
  by rewrite IH.
Qed.

Lemma split_on_join_lines (ls : list str) :
  ls ≠ [] → Forall (λ l, nl ∉ l) ls → split_on nl (join_lines ls) = ls.
Proof.
  intros Hne Hall. induction Hall as [|l ls Hl Hall IH]; [done|].
  destruct ls as [|l' ls].
  - simpl. by apply split_on_single.
  - change (join_lines (l :: l' :: ls)) with (l ++ nl :: join_lines (l' :: ls)).
    rewrite split_on_line by done. f_equal. by apply IH.
Qed.

Lemma split_on_nonempty (sep : N) (s : str) : split_on sep s ≠ [].
Proof.
  destruct s as [|c s]; simpl; [done|].
  destruct (c =? sep)%N; [done|]. by destruct (split_on sep s).
Qed.

Lemma join_lines_split_on (s : str) : join_lines (split_on nl s) = s.
Proof.
  induction s as [|c s IH]; [done|].
  pose proof (split_on_nonempty nl s) as Hne.
  simpl. destruct (N.eqb_spec c nl) as [->|Hc];
    destruct (split_on nl s) as [|l ls] eqn:Hs; try done.
  - change (join_lines ([] :: l :: ls)) with (nl :: join_lines (l :: ls)).
    by rewrite IH.
  - destruct ls as [|l' ls].
    + simpl in *. by subst s.
    + change (join_lines ((c :: l) :: l' :: ls))
        with (c :: join_lines (l :: l' :: ls)).
      by rewrite IH.
Qed.

(** Splitting a text at the line feeds and joining the pieces with line
    feeds gives the text back; joining lines that hold no line feed and
    splitting the result gives the lines back; and no piece of a split
    holds a line feed. *)
Theorem lines_round_trip :
  (∀ s : str, join_lines (split_on nl s) = s)
  ∧ (∀ ls : list str,
        ls ≠ [] → Forall (λ l, nl ∉ l) ls → split_on nl (join_lines ls) = ls)
  ∧ (∀ s : str, Forall (λ l, nl ∉ l) (split_on nl s)).
Proof.
  split; [apply join_lines_split_on|]. split; [apply split_on_join_lines|].
  induction s as [|c s IH]; simpl.
  - apply Forall_cons. split; [apply not_elem_of_nil | apply Forall_nil_2].
  - destruct (N.eqb_spec c nl) as [->|Hc].
    + apply Forall_cons. split; [apply not_elem_of_nil | done].
    + destruct (split_on nl s) as [|l ls]; simpl.
      * apply Forall_cons. split; [|done].
        intros [?|?%elem_of_nil]%elem_of_cons; [congruence|done].
      * apply Forall_cons in IH as [Hl Hls]. apply Forall_cons. split; [|done].
        intros [?|?]%elem_of_cons; done.
Qed.

Lemma lit_cons (c : ascii) (s : string) :
  lit (String c s) = N_of_ascii c :: lit s.
Proof. done. Qed.

Lemma string_of_uint_no_newline (d : Decimal.uint) :
  nl ∉ lit (DecimalString.NilEmpty.string_of_uint d).
Proof.
  induction d; simpl; try apply not_elem_of_nil;
    rewrite lit_cons; apply not_elem_of_cons; (split; [by vm_compute | done]).
Qed.

Lemma lit_no_newline (s : string) :
  bool_decide (nl ∉ lit s) = true → nl ∉ lit s.
Proof. apply bool_decide_eq_true_1. Qed.

Lemma str_of_Z_no_newline (n : Z) : nl ∉ str_of_Z n.
Proof.
  unfold str_of_Z, DecimalString.NilZero.string_of_int.
  destruct (Z.to_int n) as [d|d].
  - unfold DecimalString.NilZero.string_of_uint.
    destruct d; try apply string_of_uint_no_newline.
    by apply lit_no_newline.
  - rewrite lit_cons. apply not_elem_of_cons. split; [by vm_compute|].
    unfold DecimalString.NilZero.string_of_uint.
    destruct d; try apply string_of_uint_no_newline.
    by apply lit_no_newline.
Qed.

Lemma report_row_no_newline (kv : str * Z) : nl ∉ kv.1 → nl ∉ report_row kv.
Proof.
  intros Hk. unfold report_row, ljust.
  rewrite !not_elem_of_app. repeat split; try done.
  - intros [H _]%elem_of_replicate. discriminate H.
  - by apply lit_no_newline.
  - apply str_of_Z_no_newline.
Qed.

Lemma str_of_tenths_no_newline (n : Z) : nl ∉ str_of_tenths n.
Proof.
  unfold str_of_tenths. rewrite !not_elem_of_app.
  repeat split; try apply str_of_Z_no_newline. by apply lit_no_newline.
Qed.

Lemma report_lines_no_newline (now : str) (cpu ram : Z) (g : dict Z) :
  nl ∉ now → Forall (λ k, nl ∉ k) (keys g) →
  Forall (λ l, nl ∉ l) (report_lines now cpu ram g).
Proof.
  intros Hnow Hkeys. unfold report_lines.
  apply Forall_app. split; [|apply Forall_app; split].
  - repeat (apply Forall_cons; split); try apply Forall_nil_2;
      rewrite ?not_elem_of_app; repeat split;
      try (by apply lit_no_newline); try apply str_of_tenths_no_newline;
      try done.
    apply not_elem_of_nil.
  - apply Forall_forall. intros row [kv [-> Hkv]]%list_elem_of_fmap.
    apply report_row_no_newline.
    rewrite Forall_forall in Hkeys. apply Hkeys.
    unfold keys. apply list_elem_of_fmap. by exists kv.
  - repeat (apply Forall_cons; split); try apply Forall_nil_2;
      rewrite ?not_elem_of_app; repeat split;
      try (by apply lit_no_newline); try apply str_of_Z_no_newline.
Qed.

(** ** The report *)

(** For an administrator whose probes work, [download_report] answers
    200 with the attachment [System_Report.txt]; when neither the time
    stamp nor a counter name holds a line feed, its text has exactly
    eight header lines, one row per counter in the order of the
    dictionary, and three closing lines, the middle one giving the sum of
    all counters. *)
Theorem download_report_lines {image} (E : externals image) (st : state)
    (c r : Z) :
  session_is_admin (sess st) = true →
  cpu_percent E = Returns c →
  virtual_memory_percent E = Returns r →
  nl ∉ strftime_now E →
  Forall (λ k, nl ∉ k) (keys (global_stats st)) →
  ∃ report,
    download_report E st
      = (Returns {| status := 200;
                    content := Attachment (lit "text/plain")
                                 (lit "System_Report.txt") report |},
         set_invoked (Probe :: Probe :: invoked st) st)
    ∧ split_on nl report
      = report_lines (strftime_now E) c r (global_stats st)
    ∧ length (split_on nl report) = (11 + length (global_stats st))%nat.
Proof.
  intros Hadmin Hcpu Hram Hnow Hkeys.
  exists (join_lines (report_lines (strftime_now E) c r (global_stats st))).
  assert (Hsplit :
    split_on nl (join_lines (report_lines (strftime_now E) c r (global_stats st)))
    = report_lines (strftime_now E) c r (global_stats st)).
  { apply split_on_join_lines; [done|]. by apply report_lines_no_newline. }
  split; [|split; [done|]].
  - unfold download_report, bind, gets, invoke, reply, ret.
    rewrite Hadmin, Hcpu. simpl. by rewrite Hram.
  - rewrite Hsplit. unfold report_lines.
    rewrite !length_app, length_fmap. simpl. lia.
Qed.

Lemma download_report_lines_witness :
  ∃ report,
    download_report offline admin_state
      = (Returns {| status := 200;
                    content := Attachment (lit "text/plain")
                                 (lit "System_Report.txt") report |},
         set_invoked (Probe :: Probe :: invoked admin_state) admin_state)
    ∧ split_on nl report
      = report_lines (strftime_now offline) 125 403 (global_stats admin_state)
    ∧ length (split_on nl report) = 21%nat.
Proof.
  apply (download_report_lines offline admin_state 125 403);
    try reflexivity.
  - by apply lit_no_newline.
  - repeat (apply Forall_cons; split; [by apply lit_no_newline|]).
    apply Forall_nil_2.
Defined.

(** ** Chat and session *)

(** When the provider call of [chat] raises, the handler answers 500
    with the provider's own message, and the session, with its history,
    is as before: only the counter and the record of the call changed. *)
Theorem chat_provider_failure {image} (cfg : config) (E : externals image)
    (req : request) (st : state) (e : str) :
  truthy (message_of req) = true →
  groq_create E (API_KEY cfg)
    (chat_completion (default [] (chat_history (sess st))) (message_of req))
    = Raises e →
  ∃ g,
    chat cfg E req st
      = (Returns (failure_reply 500 e),
         set_invoked (LLM :: invoked st) (set_global_stats g st)).
Proof.
  intros Hmsg Hfail. unfold chat. step_increment (lit "chat_msgs") st.
  fold (message_of req). rewrite Hmsg. simpl.
  unfold bind, gets, try_except, invoke. simpl. rewrite Hfail.
  by exists g.
Qed.

Lemma chat_provider_failure_witness :
  ∃ g,
    chat default_config offline (say (lit "hello")) boot
      = (Returns (failure_reply 500 (lit "Connection error.")),
         set_invoked (LLM :: invoked boot) (set_global_stats g boot)).
Proof.
  apply (chat_provider_failure default_config offline (say (lit "hello")) boot
           (lit "Connection error.")); reflexivity.
Defined.



(** A login whose JSON body is no object (a list, a string, a number,
    [null]) makes [data.get] raise: Flask answers 500, not 401, and
    nothing has changed. *)
Theorem login_body_not_object (cfg : config) (req : request) (st : state) :
  (∀ d, json_body req ≠ JObj d) →
  login cfg req st = (Raises (lit "AttributeError"), st)
  ∧ serve (login cfg req) st
    = ({| status := 500; content := Page (lit "Internal Server Error") |}, st).
Proof.
  intros Hbody. unfold serve, login, bind, json_get.
  destruct (json_body req) as [| | | | | |d]; try done.
  by destruct (Hbody d).
Qed.

Lemma login_body_not_object_witness :
  login default_config (json_request (JArr [])) boot
    = (Raises (lit "AttributeError"), boot)
  ∧ serve (login default_config (json_request (JArr []))) boot
    = ({| status := 500; content := Page (lit "Internal Server Error") |}, boot).
Proof.
  apply (login_body_not_object default_config (json_request (JArr [])) boot).
  intros d H. discriminate H.
Defined.

(** ** File tools: what is written and what is left *)




(** A speech library that fails after it has opened its file leaves the
    file behind, and the client gets a 500. *)
Example text_to_audio_residue :
  (text_to_audio full_disk silent
     (form_request [(lit "text", lit "hello")]) boot).1
  = Returns (failure_reply 500 (lit "gTTSError"))
  ∧ static_folder
      (text_to_audio full_disk silent
         (form_request [(lit "text", lit "hello")]) boot).2
    !! lit "speech_00000000.mp3"
    = Some (written 0 []).
Proof. split; vm_compute; reflexivity. Qed.

(** [audio_to_text] with an upload.  The upload is saved before the
    [try]: when the file system refuses it the handler raises and the
    folder is as before; when it cuts the write the handler raises and
    the start of the upload stays under [temp_<8 hex>.wav].  When the
    upload is saved the handler returns, with the text (200) or with the
    message of the recognizer (500), and the folder afterwards is the
    folder before without that name. *)
Theorem audio_to_text_outcome {image} (D : disk) (E : externals image)
    (req : request) (st : state) (file : upload) :
  let lang := form_get req (lit "language") (lit "en-US") in
  let fname := artifact_name E (lit "temp_") (lit ".wav") (uuids st) in
  dict_get (lit "file") (files req) = Some file →
  match attempt D fname with
  | Written =>
      ∃ r st',
        audio_to_text D E req st = (Returns r, st')
        ∧ static_folder st' = delete fname (static_folder st)
        ∧ r = match recognize_google E (payload file) lang with
              | Returns t =>
                  {| status := 200;
                     content := jsonify [(lit "success", JBool true);
                                         (lit "text", JStr t)] |}
              | Raises e => failure_reply 500 e
              end
  | Refused =>
      ∃ st',
        audio_to_text D E req st = (Raises (lit "OSError"), st')
        ∧ static_folder st' = static_folder st
        ∧ invoked st' = invoked st
  | Cut n =>
      ∃ st',
        audio_to_text D E req st = (Raises (lit "OSError"), st')
        ∧ static_folder st'
          = <[fname := written (clock st) (take n (payload file))]>
              (static_folder st)
        ∧ invoked st' = invoked st
  end.
Proof.
  intros lang fname Hfile.
  destruct (attempt D fname) as [| |n] eqn:Hat;
    unfold audio_to_text;
    step_increment (lit "transcribe") st; rewrite Hfile; fold lang;
    (erewrite bind_run by apply uuid4_run);
    unfold bind at 1; rewrite save_bytes_run;
    change (lit "temp_" ++ take 8 (uuid4_hex E (uuids (set_global_stats g st)))
              ++ lit ".wav") with fname;
    rewrite Hat; [|by eexists|by eexists].
  unfold try_except, bind, read_file, invoke, os_remove, os_path_exists, gets,
    reply, ret.
  cbn [static_folder set_static_folder set_uuids set_global_stats set_invoked].
  rewrite lookup_insert_eq. cbn [data new_file].
  destruct (recognize_google E (payload file) lang) as [t|e].
  - cbn [static_folder set_static_folder set_invoked].
    rewrite lookup_insert_eq. cbn [removable new_file].
    eexists _, _. split; [reflexivity|].
    split; [|done]. cbn [static_folder set_static_folder]. apply delete_insert_eq.
  - cbn [static_folder set_static_folder set_invoked].
    rewrite lookup_insert_eq.
    rewrite bool_decide_eq_true_2 by eauto.
    cbn [static_folder set_static_folder set_invoked].
    rewrite lookup_insert_eq. cbn [removable new_file].
    eexists _, _. split; [reflexivity|].
    split; [|done]. cbn [static_folder set_static_folder]. apply delete_insert_eq.
Qed.

Lemma audio_to_text_outcome_witness :
  (∃ r st',
     audio_to_text sound_disk offline upload_request boot = (Returns r, st')
     ∧ static_folder st' = delete (lit "temp_00000000.wav") (static_folder boot)
     ∧ r = {| status := 200;
              content := jsonify [(lit "success", JBool true);
                                  (lit "text", JStr [])] |})
  ∧ (∃ st',
       audio_to_text full_disk offline upload_request boot
         = (Raises (lit "OSError"), st')
       ∧ static_folder st'
         = <[lit "temp_00000000.wav" := written 0 [x01; x02]%byte]>
             (static_folder boot)
       ∧ invoked st' = invoked boot).
Proof.
  split.
  - apply (audio_to_text_outcome sound_disk offline upload_request boot
             {| filename := lit "in.bin"; payload := [x01; x02; x03]%byte |}).
    reflexivity.
  - apply (audio_to_text_outcome full_disk offline upload_request boot
             {| filename := lit "in.bin"; payload := [x01; x02; x03]%byte |}).
    reflexivity.
Defined.






(** An upload that the file system takes only in part: the framework
    answers 500 and the start of the video stays in the folder. *)
Example video_to_audio_cut_upload :
  (serve (video_to_audio full_disk offline upload_request) boot).1
  = {| status := 500; content := Page (lit "Internal Server Error") |}
  ∧ static_folder
      (serve (video_to_audio full_disk offline upload_request) boot).2
    !! lit "temp_vid_00000000.mp4"
    = Some (written 0 [x01; x02]%byte).
Proof. split; vm_compute; reflexivity. Qed.



(** [convert_file] with an upload always returns, and writes a file only
    when the whole pipeline succeeds: when opening the image, converting
    it or encoding it in the requested format raises, the answer is 500
    with that message and the folder is as before. *)
Theorem convert_file_outcome {image} (U : casing) (E : externals image)
    (req : request) (st : state) (file : upload) :
  let fmt := upper U (requested_format req) in
  dict_get (lit "file") (files req) = Some file →
  ∃ r st',
    convert_file U E req st = (Returns r, st')
    ∧ match convert_pipeline E fmt (payload file) with
      | Returns out =>
          r = {| status := 200;
                 content := file_url (conv_name E st (lower U out.2)) |}
          ∧ static_folder st'
            = <[conv_name E st (lower U out.2) := written (clock st) out.1]>
                (static_folder st)
      | Raises e =>
          r = failure_reply 500 e ∧ static_folder st' = static_folder st
      end.
Proof.
  intros fmt Hfile. unfold convert_file, convert_pipeline.
  step_increment (lit "file_conv") st. rewrite Hfile.
  fold (requested_format req). fold fmt.
  unfold try_except, bind, invoke, uuid4, gets, modify, write_file, reply, ret.
  simpl.
  destruct (image_open E (payload file)) as [img|e]; simpl;
    [|by eexists _, _].
  destruct (bool_decide (fmt ∈ [lit "JPG"; lit "JPEG"])); simpl.
  - destruct (image_convert E img (lit "RGB")) as [rgb|e]; simpl;
      [|by eexists _, _].
    destruct (image_save E rgb (lit "JPEG") None) as [b|e]; simpl;
      by eexists _, _.
  - destruct (image_save E img fmt None) as [b|e]; simpl; by eexists _, _.
Qed.

Lemma convert_file_outcome_witness :
  ∃ r st',
    convert_file ascii_only probeless (convert_request (lit "png")) boot
      = (Returns r, st')
    ∧ r = {| status := 200; content := file_url (lit "conv_00000000.png") |}
    ∧ static_folder st'
      = <[lit "conv_00000000.png" := written 0 [x01; x02; x03]%byte]>
          (static_folder boot).
Proof.
  apply (convert_file_outcome ascii_only probeless
           (convert_request (lit "png")) boot
           {| filename := lit "in.png"; payload := [x01; x02; x03]%byte |}).
  reflexivity.
Defined.

(** ** PDF handlers *)

(** Rendering to a file that can be opened: the file is in the folder
    afterwards, with what the renderer wrote. *)
Lemma render_pdf_run (D : disk) (R : renderer) (path html : str) (st : state) :
  attempt D path ≠ Refused →
  ∃ o b,
    render_pdf D R path html st
      = (o, set_static_folder
              (<[path := written (clock st) b]> (static_folder st)) st)
    ∧ match encode_utf8 html with
      | Raises e => o = Raises e ∧ b = []
      | Returns src =>
          b = (create_pdf R src).1
          ∧ o = match (create_pdf R src).2 with
                | None => Returns tt
                | Some e => Raises e
                end
      end.
Proof.
  intros Hopen.
  assert (open_wb D path = write_file path []) as Hwb.
  { unfold open_wb. by destruct (attempt D path). }
  unfold render_pdf. rewrite Hwb.
  unfold bind, lift, write_file, modify, raise, ret.
  destruct (encode_utf8 html) as [src|e].
  - destruct (create_pdf R src) as [b [e|]]; cbn [fst snd];
      eexists _, b; (split; [|done]); f_equal; unfold set_static_folder;
      cbn [static_folder global_stats sess listable clock uuids invoked];
      by rewrite insert_insert_eq.
  - by eexists _, [].
Qed.

(** Rendering to a file that cannot be opened raises at once. *)
Lemma render_pdf_refused (D : disk) (R : renderer) (path html : str)
    (st : state) :
  attempt D path = Refused →
  render_pdf D R path html st = (Raises (lit "OSError"), st).
Proof.
  intros Hopen. unfold render_pdf, open_wb. rewrite Hopen. reflexivity.
Qed.

(** [text_to_pdf] validates nothing and always returns.  When the file
    [doc_<8 hex>.pdf] cannot be opened the answer is 500 and the folder
    is as before.  Otherwise the file is created before anything is
    rendered, so it is in the folder afterwards in every case: with the
    rendered bytes and a 200 when the renderer returns, with whatever was
    written and a 500 when the renderer raises, and empty with a 500 when
    the page cannot be encoded. *)
Theorem text_to_pdf_outcome {image} (D : disk) (R : renderer)
    (E : externals image) (req : request) (st : state) :
  let fname := artifact_name E (lit "doc_") (lit ".pdf") (uuids st) in
  ∃ r st',
    text_to_pdf D R E req st = (Returns r, st')
    ∧ match attempt D fname with
      | Refused =>
          r = failure_reply 500 (lit "OSError")
          ∧ static_folder st' = static_folder st
      | _ =>
          ∃ b,
            static_folder st'
              = <[fname := written (clock st) b]> (static_folder st)
            ∧ match encode_utf8 (styled_html req) with
              | Raises e => r = failure_reply 500 e ∧ b = []
              | Returns src =>
                  b = (create_pdf R src).1
                  ∧ r = match (create_pdf R src).2 with
                        | None => {| status := 200; content := file_url fname |}
                        | Some e => failure_reply 500 e
                        end
              end
      end.
Proof.
  intros fname. unfold text_to_pdf.
  step_increment (lit "pdf_gen") st. fold (styled_html req).
  erewrite bind_run by apply uuid4_run.
  set (s := set_uuids (S (uuids (set_global_stats g st))) (set_global_stats g st)).
  change (lit "doc_" ++ take 8 (uuid4_hex E (uuids (set_global_stats g st)))
            ++ lit ".pdf") with fname.
  assert (attempt D fname ≠ Refused →
            ∃ r st' b,
              try_except
                (render_pdf D R fname (styled_html req) ;;
                 reply 200 (file_url fname))
                (λ e, failure 500 e) s = (Returns r, st')
              ∧ static_folder st'
                = <[fname := written (clock st) b]> (static_folder st)
              ∧ match encode_utf8 (styled_html req) with
                | Raises e => r = failure_reply 500 e ∧ b = []
                | Returns src =>
                    b = (create_pdf R src).1
                    ∧ r = match (create_pdf R src).2 with
                          | None => {| status := 200; content := file_url fname |}
                          | Some e => failure_reply 500 e
                          end
                end) as Hopen.
  { intros Hne.
    destruct (render_pdf_run D R fname (styled_html req) s Hne)
      as (o & b & Hrun & Hcase).
    unfold try_except, bind. rewrite Hrun.
    destruct (encode_utf8 (styled_html req)) as [src|e].
    - destruct Hcase as [-> ->].
      destruct (create_pdf R src).2 as [e|];
        eexists _, _, _; (split; [reflexivity|]); by split.
    - destruct Hcase as [-> ->].
      eexists _, _, _; (split; [reflexivity|]); by split. }
  destruct (attempt D fname) as [| |n] eqn:Hat.
  - destruct Hopen as (r & st' & b & Hrun & Hf & Hr); [done|].
    exists r, st'. split; [exact Hrun|]. by exists b.
  - unfold try_except, bind. rewrite render_pdf_refused by exact Hat.
    by eexists _, _.
  - destruct Hopen as (r & st' & b & Hrun & Hf & Hr); [done|].
    exists r, st'. split; [exact Hrun|]. by exists b.
Qed.

(** A renderer that raises in the middle leaves its partial file behind
    and the client gets a 500; a file that cannot be opened gives a 500
    and no file. *)
Example text_to_pdf_partial_file :
  (text_to_pdf sound_disk broken_renderer offline
     (form_request [(lit "html_content", lit "<p>hi</p>")]) boot).1
  = Returns (failure_reply 500 (lit "render failed"))
  ∧ data <$> static_folder
      (text_to_pdf sound_disk broken_renderer offline
         (form_request [(lit "html_content", lit "<p>hi</p>")]) boot).2
      !! lit "doc_00000000.pdf"
    = Some [x3c; x68]%byte
  ∧ (text_to_pdf read_only_disk plain_renderer offline
       (form_request [(lit "html_content", lit "<p>hi</p>")]) boot).1
    = Returns (failure_reply 500 (lit "OSError"))
  ∧ static_folder
      (text_to_pdf read_only_disk plain_renderer offline
         (form_request [(lit "html_content", lit "<p>hi</p>")]) boot).2
    = ∅.
Proof. repeat split; vm_compute; reflexivity. Qed.

Lemma occurs_join_lines (p : str) (ls : list str) (l : str) :
  l ∈ ls → occurs p l → occurs p (join_lines ls).
Proof.
  intros Hin Hp. induction ls as [|l0 ls IH]; [by apply elem_of_nil in Hin|].
  destruct ls as [|l1 ls].
  - apply list_elem_of_singleton in Hin as ->. done.
  - change (join_lines (l0 :: l1 :: ls)) with (l0 ++ nl :: join_lines (l1 :: ls)).
    apply elem_of_cons in Hin as [->|Hin].
    + destruct Hp as (a & b & ->). exists a, (b ++ nl :: join_lines (l1 :: ls)).
      by rewrite <- !(assoc_L (++)).
    + destruct (IH Hin) as (a & b & ->). exists (l0 ++ nl :: a), b.
      by rewrite <- !(assoc_L (++)).
Qed.

(** [generate_quiz] always returns.  When the wrapper has no answer (no
    key, a failing provider or an empty answer) the reply is the body
    "AI Failed" under status 200, no file is written and no name is
    drawn; no other return has that reply.  When the provider answers,
    the file can be opened and the renderer returns, the answer carries
    the sanitized fragment, which holds no fence marker and is the text
    embedded in the rendered page, and the rendered bytes are in the
    folder under [quiz_<8 hex>.pdf].  When the provider answers and the
    file cannot be opened, the answer is 500 and the folder is as
    before. *)
Theorem generate_quiz_outcome {image} (D : disk) (cfg : config) (R : renderer)
    (E : externals image) (req : request) (st : state) :
  (no_answer cfg E (quiz_completion req) →
   ∃ g calls,
     generate_quiz D cfg R E req st
       = (Returns ai_failed_reply,
          set_invoked calls (set_global_stats g st)))
  ∧ (∃ r st',
       generate_quiz D cfg R E req st = (Returns r, st')
       ∧ (r = ai_failed_reply ↔ no_answer cfg E (quiz_completion req)))
  ∧ (∀ (key raw : str),
        let topic := form_get req (lit "topic") (lit "General Knowledge") in
        let quiz := clean_ai_text (Some raw) in
        let fname := artifact_name E (lit "quiz_") (lit ".pdf") (uuids st) in
        API_KEY cfg = Some key → truthy key = true →
        groq_create E (Some key) (quiz_completion req) = Returns raw →
        truthy raw = true →
        (∀ src b : bytes,
            attempt D fname ≠ Refused →
            encode_utf8 (quiz_pdf_html topic quiz) = Returns src →
            create_pdf R src = (b, None) →
            ∃ st',
              generate_quiz D cfg R E req st
                = (Returns (quiz_reply quiz fname), st')
              ∧ static_folder st'
                = <[fname := written (clock st) b]> (static_folder st)
              ∧ ¬ occurs fence quiz
              ∧ occurs quiz (quiz_pdf_html topic quiz))
        ∧ (attempt D fname = Refused →
           ∃ st',
             generate_quiz D cfg R E req st
               = (Returns (failure_reply 500 (lit "OSError")), st')
             ∧ static_folder st' = static_folder st)).
Proof.
  split; [|split].
  - intros Hno. unfold generate_quiz. step_increment (lit "quiz_gen") st.
    destruct (get_groq_response_cases cfg E
                (lit "You are a strict HTML quiz generator.")
                (quiz_prompt (form_get req (lit "count") (lit "5"))
                   (form_get req (lit "topic") (lit "General Knowledge")))
                (set_global_stats g st))
      as [[_ (o & l & Hrun & Ho)]|[Hyes _]]; [|by destruct Hyes].
    erewrite bind_run by exact Hrun. rewrite Ho. by exists g, l.
  - unfold generate_quiz. step_increment (lit "quiz_gen") st.
    destruct (get_groq_response_cases cfg E
                (lit "You are a strict HTML quiz generator.")
                (quiz_prompt (form_get req (lit "count") (lit "5"))
                   (form_get req (lit "topic") (lit "General Knowledge")))
                (set_global_stats g st))
      as [[Hno (o & l & Hrun & Ho)]|[Hyes (ai & Hrun & Hai)]];
      erewrite bind_run by exact Hrun.
    + rewrite Ho. eexists _, _. split; [reflexivity|]. done.
    + change (default [] (Some ai)) with ai. rewrite Hai. cbn [negb].
      erewrite bind_run by apply uuid4_run.
      unfold try_except, bind.
      destruct (render_pdf _ _ _ _ _) as [[[]|e] s].
      * eexists _, _. split; [reflexivity|]. split; [|done].
        intros H. discriminate H.
      * eexists _, _. split; [reflexivity|]. split; [|done].
        intros H. discriminate H.
  - intros key raw topic quiz fname Hkey Htruthy Hraw Hrawt.
    assert (∃ s, generate_quiz D cfg R E req st
                 = try_except
                     (render_pdf D R fname (quiz_pdf_html topic quiz) ;;
                      reply 200 (content (quiz_reply quiz fname)))
                     (λ e, failure 500 e) s
                 ∧ static_folder s = static_folder st
                 ∧ clock s = clock st) as (s & Hq & Hfs & Hcs).
    { unfold generate_quiz. step_increment (lit "quiz_gen") st.
      erewrite bind_run
        by (by apply (get_groq_response_answer cfg E key _ _ raw)).
      change (default [] (Some raw)) with raw. rewrite Hrawt. cbn [negb].
      fold topic quiz.
      erewrite bind_run by apply uuid4_run.
      exists (set_uuids (S (uuids st))
                (set_invoked (LLM :: invoked (set_global_stats g st))
                   (set_global_stats g st))).
      split; [reflexivity|]. split; reflexivity. }
    split.
    + intros src b Hopen Henc Hpdf.
      destruct (render_pdf_run D R fname (quiz_pdf_html topic quiz) s Hopen)
        as (o & b' & Hrun & Hcase).
      rewrite Henc, Hpdf in Hcase. destruct Hcase as [-> ->].
      rewrite Hq. unfold try_except, bind. rewrite Hrun.
      eexists. split; [reflexivity|].
      cbn [static_folder set_static_folder fst]. rewrite Hfs, Hcs.
      split; [reflexivity|]. split.
      * unfold quiz. rewrite clean_ai_text_some.
        intros H%strip_occurs. by apply unfenced_absent in H.
      * unfold quiz_pdf_html.
        apply (occurs_join_lines _ _ (lit "        " ++ quiz)).
        -- do 27 apply list_elem_of_further. apply list_elem_of_here.
        -- exists (lit "        "), []. by rewrite app_nil_r.
    + intros Hno.
      rewrite Hq. unfold try_except, bind.
      rewrite render_pdf_refused by exact Hno.
      eexists. split; [reflexivity|]. exact Hfs.
Qed.

Lemma generate_quiz_outcome_witness :
  (∃ g calls,
     generate_quiz sound_disk keyed_config plain_renderer mute
       (form_request []) boot
       = (Returns ai_failed_reply, set_invoked calls (set_global_stats g boot)))
  ∧ (∃ st',
       generate_quiz sound_disk keyed_config plain_renderer quizmaster
         (form_request []) boot
         = (Returns (quiz_reply (lit "<h3>Q1</h3>") (lit "quiz_00000000.pdf")),
            st')
       ∧ is_Some (static_folder st' !! lit "quiz_00000000.pdf"))
  ∧ (∃ st',
       generate_quiz read_only_disk keyed_config plain_renderer quizmaster
         (form_request []) boot
         = (Returns (failure_reply 500 (lit "OSError")), st')
       ∧ static_folder st' = static_folder boot).
Proof.
  split; [|split].
  - apply (proj1 (generate_quiz_outcome sound_disk keyed_config plain_renderer
                    mute (form_request []) boot)).
    right. right. reflexivity.
  - destruct (proj1 (proj2 (proj2
                (generate_quiz_outcome sound_disk keyed_config plain_renderer
                   quizmaster (form_request []) boot))
                (lit "gsk_test")
                (lit "```html" ++ nl :: lit "<h3>Q1</h3>" ++ nl :: lit "```")
                eq_refl eq_refl eq_refl eq_refl)
              _ _ ltac:(discriminate) eq_refl eq_refl)
      as (st' & Hrun & Hfolder & _).
    exists st'. split; [exact Hrun|]. rewrite Hfolder.
    rewrite lookup_insert_eq. eauto.
  - apply (proj2 (proj2 (proj2
             (generate_quiz_outcome read_only_disk keyed_config plain_renderer
                quizmaster (form_request []) boot))
             (lit "gsk_test")
             (lit "```html" ++ nl :: lit "<h3>Q1</h3>" ++ nl :: lit "```")
             eq_refl eq_refl eq_refl eq_refl)).
    reflexivity.
Defined.

(** ** Edges of the outline loop *)

Lemma outline_step_layouts (raw : str) (acc acc' : deck * option nat) :
  outline_step raw acc = Returns acc' →
  is_slide_line raw = false →
  slide_layouts acc'.1 = slide_layouts acc.1.
Proof.
  destruct acc as [prs cur]. unfold outline_step, is_slide_line.
  intros Hstep Hraw. rewrite Hraw in Hstep.
  destruct (startswith (strip raw) point_mark); [|by injection Hstep as <-].
  destruct cur; by injection Hstep as <-.
Qed.

(** A deck without any layout makes the loop raise at the first [SLIDE:]
    line, whatever came before it; and a text without any [SLIDE:] line
    leaves every deck exactly as it was, its [POINT:] lines all dropped. *)
Theorem outline_loop_edges (lines : list str) :
  (∀ acc : deck * option nat,
      slide_layouts acc.1 = [] →
      Exists (λ raw, is_slide_line raw = true) lines →
      outline_loop lines acc = Raises (lit "IndexError"))
  ∧ (∀ prs : deck,
        Forall (λ raw, is_slide_line raw = false) lines →
        outline_loop lines (prs, None) = Returns (prs, None)).
Proof.
  split.
  - induction lines as [|raw rest IH]; intros acc Hlay Hex.
    + by apply Exists_nil in Hex.
    + cbn [outline_loop].
      destruct (is_slide_line raw) eqn:Hraw.
      * destruct acc as [prs cur]. unfold outline_step.
        unfold is_slide_line in Hraw. rewrite Hraw.
        simpl in Hlay. rewrite Hlay. done.
      * apply Exists_cons in Hex as [Hex|Hex]; [congruence|].
        destruct (outline_step raw acc) as [acc'|e] eqn:Hstep.
        -- apply IH; [|done].
           by rewrite (outline_step_layouts raw acc acc' Hstep Hraw).
        -- exfalso. destruct acc as [prs cur].
           unfold outline_step in Hstep. unfold is_slide_line in Hraw.
           rewrite Hraw in Hstep.
           destruct (startswith (strip raw) point_mark); [|done].
           by destruct cur.
  - intros prs Hall. induction Hall as [|raw rest Hraw _ IH]; [done|].
    cbn [outline_loop]. unfold outline_step.
    unfold is_slide_line in Hraw. rewrite Hraw.
    by destruct (startswith (strip raw) point_mark).
Qed.

Lemma outline_loop_edges_witness :
  outline_loop [lit "POINT: x"; lit "SLIDE: A"] (bare_deck, None)
    = Raises (lit "IndexError")
  ∧ outline_loop [lit "POINT: x"; lit "hello"] (stock_deck, None)
    = Returns (stock_deck, None).
Proof.
  split.
  - apply (proj1 (outline_loop_edges [lit "POINT: x"; lit "SLIDE: A"]));
      [reflexivity|].
    apply Exists_cons_tl, Exists_cons_hd. reflexivity.
  - apply (proj2 (outline_loop_edges [lit "POINT: x"; lit "hello"])).
    repeat (apply Forall_cons; split; [reflexivity|]). apply Forall_nil_2.
Defined.

(** ** Sweeping twice *)

Lemma keep_unless_swept_twice (now : Q) (o : option entry) :
  (o ≫= keep_unless_swept now) ≫= keep_unless_swept now
  = o ≫= keep_unless_swept now.
Proof.
  destruct o as [e|]; [|done]. simpl. unfold keep_unless_swept.
  destruct (sweepable now e) eqn:Hs; simpl; [done | by rewrite Hs].
Qed.

(** A second pass of the sweeper at the same time changes nothing: every
    file the first pass could remove is gone, and what it left stays. *)
Theorem cleanup_idempotent (st : state) :
  cleanup_old_files (cleanup_old_files st).2
  = (Returns tt, (cleanup_old_files st).2).
Proof.
  rewrite (cleanup_old_files_run st). cbn [snd].
  destruct (listable st) eqn:Hl.
  - rewrite cleanup_old_files_run.
    cbn [listable set_static_folder clock static_folder]. rewrite Hl.
    f_equal. unfold set_static_folder. f_equal.
    cbn [static_folder].
    set (m := static_folder st). set (now := clock st).
    set (m1 := foldl (sweep_one now) m (map_to_list m).*1).
    assert (Hm1 : ∀ f, m1 !! f = m !! f ≫= keep_unless_swept now).
    { intros f. unfold m1. rewrite foldl_sweep_lookup.
      destruct (decide (f ∈ (map_to_list m).*1)) as [Hin|Hout]; [done|].
      destruct (m !! f) eqn:Hf; [|done].
      exfalso. apply Hout, listed_names. by rewrite Hf. }
    apply map_eq. intros f. rewrite foldl_sweep_lookup.
    destruct (decide (f ∈ (map_to_list m1).*1)); [|done].
    rewrite Hm1. apply keep_unless_swept_twice.
  - rewrite cleanup_old_files_run. by rewrite Hl.
Qed.

(** ** Sanitizer on text without fences *)

(** A text in which three backticks never follow one another is only
    trimmed: nothing inside it is removed. *)
Theorem clean_without_fence (x : str) :
  ¬ occurs fence x → clean_ai_text (Some x) = strip x.
Proof.
  intros Hno. rewrite clean_ai_text_some. by rewrite unfenced_fixed.
Qed.

Lemma clean_without_fence_witness :
  clean_ai_text (Some (lit "  a `b` c  ")) = strip (lit "  a `b` c  ").
Proof.
  apply (clean_without_fence (lit "  a `b` c  ")).
  intros (a & b & H). vm_compute in H.
  repeat (destruct a as [|? a]; [discriminate H|]; injection H as _ H).
  destruct a; discriminate H.
Defined.

(** ** Empty completions *)

(** A completion that is the empty string counts as no completion: the
    pure-text handlers answer with their fallback text, never with an
    empty one. *)
Theorem empty_completion_falls_back {image} (cfg : config)
    (E : externals image) (req : request) (st : state) (key : str) :
  API_KEY cfg = Some key →
  truthy key = true →
  (∀ c, groq_create E (Some key) c = Returns []) →
  (generate_minutes cfg E req st).1
    = Returns (text_reply (lit "minutes") (lit "AI Service Busy"))
  ∧ (generate_email cfg E req st).1
    = Returns (text_reply (lit "email_content") (lit "AI Service Busy"))
  ∧ (review_code cfg E req st).1
    = Returns (text_reply (lit "review") (lit "AI Service Busy"))
  ∧ (translate cfg E req st).1
    = Returns (text_reply (lit "translation") (lit "Error")).
Proof.
  intros Hkey Htruthy Hempty. repeat split.
  - unfold generate_minutes. step_increment (lit "text_gen") st.
    by erewrite bind_run
      by (by apply (get_groq_response_answer cfg E key _ _ [])).
  - unfold generate_email. step_increment (lit "text_gen") st.
    by erewrite bind_run
      by (by apply (get_groq_response_answer cfg E key _ _ [])).
  - unfold review_code. step_increment (lit "code_review") st.
    by erewrite bind_run
      by (by apply (get_groq_response_answer cfg E key _ _ [])).
  - unfold translate. step_increment (lit "text_gen") st.
    by erewrite bind_run
      by (by apply (get_groq_response_answer cfg E key _ _ [])).
Qed.

Lemma empty_completion_falls_back_witness :
  (generate_minutes keyed_config mute (form_request []) boot).1
    = Returns (text_reply (lit "minutes") (lit "AI Service Busy")).
Proof.
  refine (proj1 (empty_completion_falls_back keyed_config mute
                   (form_request []) boot (lit "gsk_test")
                   eq_refl eq_refl _)).
  intros c. reflexivity.
Defined.
